(** * Trading Pro: signal fusion, signal lifecycle and webhook delivery

    A shallow embedding of the signal engine ([main_app/signal_service.py]),
    of [TradingSignal.calculate_performance] ([main_app/models.py]) and of the
    webhook delivery service ([main_app/webhook_service.py]), followed by the
    properties established about them.

    Conventions of the embedding:
    - Python [str] values are [string]; [None]-able fields are [option];
    - Python [float] and [Decimal] values are exact rationals ([Q]): rounding,
      infinities and NaN are outside the model;
    - timestamps are integers ([Z], microseconds since the epoch);
    - database tables are lists of rows, or finite maps where the model
      declares a uniqueness constraint;
    - [logger] calls have no effect on any modelled state and are omitted. *)

From Stdlib Require Import Ascii String QArith Qabs Qminmax Lqa.
From stdpp Require Import gmap strings list sorting pretty.

Open Scope string_scope.

(** ** Python helpers shared by the modules *)

(** [needle in hay] on Python strings: substring test. *)
Fixpoint str_in (needle hay : string) : bool :=
  String.prefix needle hay ||
  match hay with
  | EmptyString => false
  | String _ rest => str_in needle rest
  end.

(** Truthiness of a [str]: the empty string is falsy. *)
Definition str_truthy (s : string) : bool :=
  negb (String.eqb s "").

(** Truthiness of an optional [str] field: [None] and [''] are falsy. *)
Definition opt_str_truthy (o : option string) : bool :=
  match o with
  | None => false
  | Some s => str_truthy s
  end.

(** Truthiness of a model instance: the class defines neither [__bool__]
    nor [__len__], so every instance is truthy. *)
Definition instance_truthy {A} (_ : A) : bool := true.

(** Truthiness of an optional number: [None] and zero are falsy. *)
Definition opt_num_truthy (o : option Q) : bool :=
  match o with
  | None => false
  | Some x => negb (Qeq_bool x 0)
  end.

(** [value or default] for an optional number. *)
Definition num_or (o : option Q) (default : Q) : Q :=
  match o with
  | None => default
  | Some x => if Qeq_bool x 0 then default else x
  end.

(** [np.mean] of a list of numbers (the callers never pass an empty list
    on the paths modelled here; an empty sum divided by zero is [0] in [Q]). *)
Definition Qsum (l : list Q) : Q := foldr Qplus 0%Q l.

Definition mean (l : list Q) : Q :=
  (Qsum l / inject_Z (Z.of_nat (length l)))%Q.

(** [l[-n:]]: the last [n] elements, the whole list when it is shorter
    (and also when [n = 0], since [-0] is [0]). *)
Definition last_n {A} (n : nat) (l : list A) : list A :=
  match n with
  | O => l
  | _ => drop (length l - n) l
  end.

(** [timedelta(days=d)] in microseconds. *)
Definition timedelta_days (d : Z) : Z := (d * 86400 * 1000000)%Z.

(** Upper-casing of the ASCII letters, as the database's case-insensitive
    [LIKE] folds them. *)
Definition ascii_upper (c : ascii) : ascii :=
  let n := N_of_ascii c in
  if ((97 <=? n) && (n <=? 122))%N then ascii_of_N (n - 32) else c.

Fixpoint str_upper (s : string) : string :=
  match s with
  | EmptyString => EmptyString
  | String c rest => String (ascii_upper c) (str_upper rest)
  end.

(** The ORM lookup [field__icontains=pattern] on a non-null text column. *)
Definition icontains (field pattern : string) : bool :=
  str_in (str_upper pattern) (str_upper field).

(** The same lookup on a nullable column: [NULL] never matches. *)
Definition opt_icontains (field : option string) (pattern : string) : bool :=
  match field with
  | None => false
  | Some f => icontains f pattern
  end.

(** ** main_app/signal_service.py *)

Module signal_service.

(** *** SignalGenerator._combine_signal_types *)

Definition _combine_signal_types (gpt_type technical_type : string) : string :=
  if String.eqb gpt_type technical_type then gpt_type
  else if str_in "strong" gpt_type && negb (str_in "strong" technical_type)
  then gpt_type
  else if str_in "strong" technical_type && negb (str_in "strong" gpt_type)
  then technical_type
  else if bool_decide (gpt_type ∈ ["buy"; "strong_buy"])
          && bool_decide (technical_type ∈ ["buy"; "strong_buy"])
  then (if str_in "strong" gpt_type || str_in "strong" technical_type
        then "strong_buy" else "buy")
  else if bool_decide (gpt_type ∈ ["sell"; "strong_sell"])
          && bool_decide (technical_type ∈ ["sell"; "strong_sell"])
  then (if str_in "strong" gpt_type || str_in "strong" technical_type
        then "strong_sell" else "sell")
  else "hold".


(** *** Rows of the tables the service reads (the columns it uses) *)

Record NewsArticle := mkNewsArticle {
  article_id : Z;
  title : string;
  content : string;
  summary : option string;
  gpt_sentiment : option string;
  gpt_sentiment_confidence : option Q;
  gpt_impact : option string;
  gpt_impact_confidence : option Q;
  scraped_date : Z
}.

Record MarketTicker := mkMarketTicker {
  symbol : string;
  exchange : string;
  security_type : string;
  currency : string
}.

Record TradingSignal := mkTradingSignal {
  id : Z;
  ticker : MarketTicker;
  signal_type : string;
  confidence : Q;
  status : string;
  expiry_time : option Z;
  target_price : option Q;
  execution_price : option Q;
  performance_score : option Q
}.

Definition set_status (st : string) (s : TradingSignal) : TradingSignal :=
  mkTradingSignal (id s) (ticker s) (signal_type s) (confidence s) st
    (expiry_time s) (target_price s) (execution_price s) (performance_score s).

Definition set_performance_score (p : option Q) (s : TradingSignal)
  : TradingSignal :=
  mkTradingSignal (id s) (ticker s) (signal_type s) (confidence s) (status s)
    (expiry_time s) (target_price s) (execution_price s) p.

(** *** SignalGenerator._get_recent_articles *)

(** The [Q(title__icontains) | Q(content__icontains) | Q(summary__icontains)]
    disjunction together with [scraped_date__gte=cutoff_date]. *)
Definition article_filter (ticker_symbol : string) (cutoff_date : Z)
    (a : NewsArticle) : bool :=
  (icontains (title a) ticker_symbol
   || icontains (content a) ticker_symbol
   || opt_icontains (summary a) ticker_symbol)
  && (cutoff_date <=? scraped_date a)%Z.

(** [order_by('-scraped_date')]: newest first. *)
Definition newer_first (a b : NewsArticle) : Prop :=
  (scraped_date b ≤ scraped_date a)%Z.

Global Instance newer_first_dec a b : Decision (newer_first a b).
Proof. unfold newer_first. apply _. Defined.

Definition _get_recent_articles (now : Z) (articles_table : list NewsArticle)
    (ticker_symbol : string) (days : Z) : list NewsArticle :=
  let cutoff_date := (now - timedelta_days days)%Z in
  take 10
    (merge_sort newer_first
       (filter (λ a, Is_true (article_filter ticker_symbol cutoff_date a))
          articles_table)).

(** *** SignalGenerator._sentiment_to_score, _impact_to_score *)

Definition _sentiment_to_score (sentiment : string) : Q :=
  if String.eqb sentiment "positive" then (7 # 10)%Q
  else if String.eqb sentiment "negative" then (- (7 # 10))%Q
  else 0%Q.

Definition _impact_to_score (impact : string) : Q :=
  if String.eqb impact "high" then 1%Q
  else if String.eqb impact "medium" then (1 # 2)%Q
  else if String.eqb impact "low" then (2 # 10)%Q
  else 0%Q.

(** *** SignalGenerator._calculate_signal_from_scores *)

Definition _calculate_signal_from_scores (sentiment_score impact_score : Q)
  : string * Q :=
  let combined_score := (sentiment_score * (7 # 10) + impact_score * (3 # 10))%Q in
  let signal_type :=
    if negb (Qle_bool combined_score (1 # 2)) then
      (if negb (Qle_bool combined_score (8 # 10)) then "strong_buy" else "buy")
    else if negb (Qle_bool (- (1 # 2)) combined_score) then
      (if negb (Qle_bool (- (8 # 10)) combined_score) then "strong_sell"
       else "sell")
    else "hold" in
  let confidence := Qmin (Qabs combined_score * impact_score) 1 in
  let confidence := Qmax confidence (1 # 10) in
  (signal_type, confidence).

(** *** SignalGenerator._generate_gpt_signal *)

(** The accumulation loop over the articles. [None] is an exception leaving
    the loop: an article without a sentiment makes the loop call
    [self.gpt_analyzer.analyze_article], a method [GPTNewsAnalyzer] does not
    have, which raises [AttributeError]. *)
Fixpoint gpt_accumulate (articles : list NewsArticle)
    (total_sentiment total_impact : Q) (analyzed_count : nat)
  : option (Q * Q * nat) :=
  match articles with
  | [] => Some (total_sentiment, total_impact, analyzed_count)
  | article :: rest =>
      if negb (opt_str_truthy (gpt_sentiment article)) then None
      else
        match gpt_sentiment article, gpt_impact article with
        | Some sentiment, Some impact =>
            if str_truthy sentiment && str_truthy impact then
              let sentiment_score := _sentiment_to_score sentiment in
              let impact_score := _impact_to_score impact in
              gpt_accumulate rest
                (total_sentiment
                 + sentiment_score
                   * num_or (gpt_sentiment_confidence article) (1 # 2))%Q
                (total_impact
                 + impact_score
                   * num_or (gpt_impact_confidence article) (1 # 2))%Q
                (S analyzed_count)
            else gpt_accumulate rest total_sentiment total_impact analyzed_count
        | _, _ => gpt_accumulate rest total_sentiment total_impact analyzed_count
        end
  end.

(** What [_generate_gpt_signal] passes to [TradingSignal.objects.create]. *)
Record GptSignal := mkGptSignal {
  gpt_signal_type : string;
  gpt_confidence : Q;
  gpt_sentiment_score : Q;
  gpt_avg_impact : Q;
  gpt_articles_analyzed : nat
}.

(** [None] is the Python [None] the method returns: no articles, an
    exception caught by the [except Exception] clause, or no scored article. *)
Definition _generate_gpt_signal (articles : list NewsArticle)
  : option GptSignal :=
  match articles with
  | [] => None
  | _ =>
      match gpt_accumulate articles 0 0 0 with
      | None => None
      | Some (total_sentiment, total_impact, analyzed_count) =>
          if Nat.eqb analyzed_count 0 then None
          else
            let n := inject_Z (Z.of_nat analyzed_count) in
            let avg_sentiment := (total_sentiment / n)%Q in
            let avg_impact := (total_impact / n)%Q in
            let '(signal_type, confidence) :=
              _calculate_signal_from_scores avg_sentiment avg_impact in
            Some (mkGptSignal signal_type confidence avg_sentiment avg_impact
                    analyzed_count)
      end
  end.

(** *** SignalGenerator._calculate_news_impact *)

Fixpoint news_impact_accumulate (articles : list NewsArticle)
    (total_impact : Q) (count : nat) : Q * nat :=
  match articles with
  | [] => (total_impact, count)
  | article :: rest =>
      match gpt_impact article with
      | Some impact =>
          if str_truthy impact then
            let impact_score := _impact_to_score impact in
            let confidence := num_or (gpt_impact_confidence article) (1 # 2) in
            news_impact_accumulate rest
              (total_impact + impact_score * confidence)%Q (S count)
          else news_impact_accumulate rest total_impact count
      | None => news_impact_accumulate rest total_impact count
      end
  end.

Definition _calculate_news_impact (articles : list NewsArticle) : Q :=
  match articles with
  | [] => 0
  | _ =>
      let '(total_impact, count) := news_impact_accumulate articles 0 0 in
      if (0 <? count)%nat
      then (total_impact / inject_Z (Z.of_nat count))%Q
      else 0
  end.

(** *** SignalGenerator._calculate_rsi *)

(** [[prices[i] - prices[i-1] for i in range(1, len(prices))]]. *)
Definition price_deltas (prices : list Q) : list Q :=
  zip_with (λ previous current, (current - previous)%Q) prices (tail prices).

Definition _calculate_rsi (prices : list Q) (period : nat) : Q :=
  if (length prices <? period + 1)%nat then 50
  else
    let deltas := price_deltas prices in
    let gains := map (λ d, if negb (Qle_bool d 0) then d else 0%Q) deltas in
    let losses := map (λ d, if negb (Qle_bool 0 d) then (- d)%Q else 0%Q) deltas in
    let avg_gain := mean (last_n period gains) in
    let avg_loss := mean (last_n period losses) in
    if Qeq_bool avg_loss 0 then 100
    else
      let rs := (avg_gain / avg_loss)%Q in
      (100 - 100 / (1 + rs))%Q.

(** *** SignalManager.expire_old_signals *)

(** The rows selected by [filter(status='active', expiry_time__lt=now)]; a
    [NULL] expiry time never compares below [now]. *)
Definition expiry_due (now : Z) (s : TradingSignal) : bool :=
  String.eqb (status s) "active"
  && match expiry_time s with
     | Some t => (t <? now)%Z
     | None => false
     end.

(** The signals table is keyed by primary key. The method returns the row
    count of the [update]; the second component is the table afterwards. *)
Definition expire_old_signals (now : Z) (signals : gmap Z TradingSignal)
  : nat * gmap Z TradingSignal :=
  let expired_count :=
    size (filter (λ kv, Is_true (expiry_due now kv.2)) signals) in
  (expired_count,
   (λ s, if expiry_due now s then set_status "expired" s else s) <$> signals).

(** *** Floating-point values that leave the rationals

    Where the code divides by a NumPy float that can be zero, or averages a
    list that can be empty, the result can be an infinity or NaN. These
    values are kept apart from the rationals. *)

Inductive np_float :=
  | Finite (q : Q)
  | PosInf
  | NegInf
  | NotANumber.

(** [x / y] for a NumPy float [y]: no exception on a zero divisor. *)
Definition np_divide (x y : Q) : np_float :=
  if Qeq_bool y 0 then
    (if negb (Qle_bool x 0) then PosInf
     else if negb (Qle_bool 0 x) then NegInf
     else NotANumber)
  else Finite (x / y).

(** [r > t] and [r < t] against a finite threshold; NaN compares false. *)
Definition np_gt (r : np_float) (t : Q) : bool :=
  match r with
  | Finite q => negb (Qle_bool q t)
  | PosInf => true
  | NegInf | NotANumber => false
  end.

Definition np_lt (r : np_float) (t : Q) : bool :=
  match r with
  | Finite q => negb (Qle_bool t q)
  | NegInf => true
  | PosInf | NotANumber => false
  end.

Definition np_sub (a b : np_float) : np_float :=
  match a, b with
  | NotANumber, _ | _, NotANumber => NotANumber
  | Finite x, Finite y => Finite (x - y)
  | Finite _, PosInf => NegInf
  | Finite _, NegInf => PosInf
  | PosInf, PosInf => NotANumber
  | PosInf, _ => PosInf
  | NegInf, NegInf => NotANumber
  | NegInf, _ => NegInf
  end.

(** [np.mean] where the list can be empty: the mean of nothing is NaN. *)
Definition np_mean (l : list Q) : np_float :=
  match l with
  | [] => NotANumber
  | _ => Finite (mean l)
  end.

(** *** SignalGenerator._score_to_sentiment *)

Definition _score_to_sentiment (score : Q) : string :=
  if negb (Qle_bool score (3 # 10)) then "positive"
  else if negb (Qle_bool (- (3 # 10)) score) then "negative"
  else "neutral".

(** *** SignalGenerator._get_sentiment_breakdown, _get_impact_breakdown *)

(** [d[key] += 1] on a dict: [None] is the [KeyError] of a missing key. *)
Definition dict_increment (key : string) (d : gmap string nat)
  : option (gmap string nat) :=
  match d !! key with
  | Some n => Some (<[key := n + 1]> d)
  | None => None
  end.

(** The counting loop shared by the two breakdowns; [label] reads the field
    counted. *)
Fixpoint breakdown_loop (label : NewsArticle → option string)
    (articles : list NewsArticle) (breakdown : gmap string nat)
  : option (gmap string nat) :=
  match articles with
  | [] => Some breakdown
  | article :: rest =>
      match label article with
      | Some l =>
          if str_truthy l then
            match dict_increment l breakdown with
            | Some breakdown => breakdown_loop label rest breakdown
            | None => None
            end
          else breakdown_loop label rest breakdown
      | None => breakdown_loop label rest breakdown
      end
  end.

Definition _get_sentiment_breakdown (articles : list NewsArticle)
  : option (gmap string nat) :=
  breakdown_loop gpt_sentiment articles
    (<["positive" := 0]> (<["negative" := 0]> (<["neutral" := 0]> ∅))).

Definition _get_impact_breakdown (articles : list NewsArticle)
  : option (gmap string nat) :=
  breakdown_loop gpt_impact articles
    (<["high" := 0]> (<["medium" := 0]> (<["low" := 0]> ∅))).

(** *** SignalGenerator._generate_gpt_signal, with the market context

    After the scores ([_generate_gpt_signal] above) the method evaluates the
    arguments of [TradingSignal.objects.create], among them the sentiment
    label and the two breakdowns. A [KeyError] raised by a breakdown is
    caught by the method's [except Exception] clause, and the method then
    returns [None] without creating a signal. *)
Record CreatedGptSignal := mkCreatedGptSignal {
  created_scores : GptSignal;
  created_sentiment_label : string;
  created_sentiment_breakdown : gmap string nat;
  created_impact_breakdown : gmap string nat
}.

Definition _generate_gpt_signal_created (articles : list NewsArticle)
  : option CreatedGptSignal :=
  match _generate_gpt_signal articles with
  | None => None
  | Some g =>
      match _get_sentiment_breakdown articles,
            _get_impact_breakdown articles with
      | Some sentiment_breakdown, Some impact_breakdown =>
          Some (mkCreatedGptSignal g
                  (_score_to_sentiment (gpt_sentiment_score g))
                  sentiment_breakdown impact_breakdown)
      | _, _ => None
      end
  end.

(** *** SignalGenerator._calculate_ema, _calculate_macd *)

(** [None] is the [IndexError] of [prices[0]] on an empty list. *)
Definition _calculate_ema (prices : list Q) (period : nat) : option np_float :=
  if (length prices <? period)%nat then Some (np_mean prices)
  else
    let multiplier := (2 / (inject_Z (Z.of_nat period) + 1))%Q in
    match prices with
    | [] => None
    | first :: rest =>
        Some (Finite
                (foldl (λ ema price,
                          (price * multiplier + ema * (1 - multiplier))%Q)
                   first rest))
    end.

Definition _calculate_macd (prices : list Q) : option np_float :=
  if (length prices <? 26)%nat then Some (Finite 0)
  else
    match _calculate_ema prices 12, _calculate_ema prices 26 with
    | Some ema_12, Some ema_26 => Some (np_sub ema_12 ema_26)
    | _, _ => None
    end.

(** *** SignalGenerator._calculate_technical_signal *)

(** The dict of technical scores: [overall_score] is [None] when the key is
    absent; the other entries are present together or not at all. *)
Record Indicators := mkIndicators {
  ind_rsi : Q;
  ind_macd : np_float;
  ind_ma_20 : Q;
  ind_ma_50 : Q;
  ind_bb_upper : np_float;
  ind_bb_lower : np_float;
  ind_price_vs_ma20 : np_float;
  ind_price_vs_ma50 : np_float;
  ind_volume_ratio : Q
}.

Record TechnicalScores := mkTechnicalScores {
  overall_score : option Q;
  indicators : option Indicators
}.

Definition _calculate_technical_signal (technical_scores : TechnicalScores)
  : string * Q :=
  let overall_score := default (1 # 2)%Q (overall_score technical_scores) in
  let signal_type :=
    if negb (Qle_bool overall_score (7 # 10)) then "strong_buy"
    else if negb (Qle_bool overall_score (6 # 10)) then "buy"
    else if negb (Qle_bool (3 # 10) overall_score) then "strong_sell"
    else if negb (Qle_bool (4 # 10) overall_score) then "sell"
    else "hold" in
  let confidence := (Qabs (overall_score - (1 # 2)) * 2)%Q in
  let confidence := Qmax confidence (1 # 10) in
  (signal_type, confidence).

(** *** Rows read by the technical analysis *)

(** A snapshot of [MarketData] (the columns read here and by its methods). *)
Record MarketData := mkMarketData {
  bid_price : option Q;
  ask_price : option Q;
  last_price : option Q;
  close_price : option Q;
  volume : option Z
}.

(** One entry of the list [_get_historical_data] builds from a
    [HistoricalData] bar. *)
Record Bar := mkBar {
  bar_open : Q;
  bar_high : Q;
  bar_low : Q;
  bar_close : Q;
  bar_volume : Z
}.

Section TechnicalIndicators.

(** [np.sqrt], which [np.std] ends with. *)
Variable sqrt : Q → Q.

(** [np.std] of a non-empty list: the population standard deviation. *)
Definition np_std (l : list Q) : Q :=
  sqrt (mean (map (λ x, ((x - mean l) * (x - mean l))%Q) l)).

(** *** SignalGenerator._calculate_bollinger_bands

    [None] is the [IndexError] of [prices[-1]] on an empty list. *)
Definition _calculate_bollinger_bands (prices : list Q) (period : nat)
    (std_dev : Q) : option (np_float * np_float) :=
  if (length prices <? period)%nat then
    match last prices with
    | Some p => Some (Finite p, Finite p)
    | None => None
    end
  else
    let recent_prices := last_n period prices in
    match recent_prices with
    | [] => Some (NotANumber, NotANumber)
    | _ =>
        let sma := mean recent_prices in
        let std := np_std recent_prices in
        Some (Finite (sma + std * std_dev), Finite (sma - std * std_dev))
    end.

(** *** SignalGenerator._calculate_technical_indicators *)

Definition neutral_scores : TechnicalScores :=
  mkTechnicalScores (Some (1 # 2)%Q) None.

(** Every exception inside the [try] block leads to the neutral result:
    [float(None)] for a snapshot without a last price, or an [IndexError]
    in a helper. *)
Definition _calculate_technical_indicators (historical_data : list Bar)
    (market_data : option MarketData) : TechnicalScores :=
  match historical_data with
  | [] => neutral_scores
  | _ =>
      let closes := map bar_close historical_data in
      let volumes := map (λ d, inject_Z (bar_volume d)) historical_data in
      let ma_20 :=
        if (20 <=? length closes)%nat then mean (last_n 20 closes)
        else mean closes in
      let ma_50 :=
        if (50 <=? length closes)%nat then mean (last_n 50 closes)
        else mean closes in
      let rsi := _calculate_rsi closes 14 in
      match _calculate_macd closes, _calculate_bollinger_bands closes 20 2,
            match market_data with
            | Some snapshot => last_price snapshot
            | None => last closes
            end,
            last volumes with
      | Some macd, Some (bb_upper, bb_lower), Some current_price,
        Some last_volume =>
          let price_vs_ma20 := np_divide (current_price - ma_20) ma_20 in
          let price_vs_ma50 := np_divide (current_price - ma_50) ma_50 in
          let avg_volume :=
            if (20 <=? length volumes)%nat then mean (last_n 20 volumes)
            else mean volumes in
          let volume_ratio :=
            if negb (Qle_bool avg_volume 0) then (last_volume / avg_volume)%Q
            else 1%Q in
          let score := (1 # 2)%Q in
          let score :=
            if np_gt price_vs_ma20 (2 # 100) then (score + (2 # 10))%Q
            else if np_lt price_vs_ma20 (- (2 # 100)) then (score - (2 # 10))%Q
            else score in
          let score :=
            if np_gt price_vs_ma50 (5 # 100) then (score + (1 # 10))%Q
            else if np_lt price_vs_ma50 (- (5 # 100)) then (score - (1 # 10))%Q
            else score in
          let score :=
            if negb (Qle_bool 30 rsi) then (score + (15 # 100))%Q
            else if negb (Qle_bool rsi 70) then (score - (15 # 100))%Q
            else score in
          let score :=
            if negb (Qle_bool volume_ratio (15 # 10)) then (score + (1 # 10))%Q
            else if negb (Qle_bool (5 # 10) volume_ratio)
            then (score - (5 # 100))%Q
            else score in
          let score := Qmax 0 (Qmin 1 score) in
          mkTechnicalScores (Some score)
            (Some (mkIndicators rsi macd ma_20 ma_50 bb_upper bb_lower
                     price_vs_ma20 price_vs_ma50 volume_ratio))
      | _, _, _, _ => neutral_scores
      end
  end.

End TechnicalIndicators.

(** *** SignalManager.get_signal_performance_stats *)

Record PerformanceStats := mkPerformanceStats {
  total_signals : nat;
  average_performance : Q;
  success_rate : Q;
  best_performance : Q;
  worst_performance : Q
}.

(** [max(l)] and [min(l)] of a non-empty list given by head and tail. *)
Definition list_max (x : Q) (l : list Q) : Q := foldl Qmax x l.
Definition list_min (x : Q) (l : list Q) : Q := foldl Qmin x l.

(** The scores of the executed signals whose performance score is set. *)
Definition executed_performances (signals : gmap Z TradingSignal) : list Q :=
  omap (λ s, if String.eqb (status s) "executed"
             then performance_score s else None)
    (map_to_list signals).*2.

Definition get_signal_performance_stats (signals : gmap Z TradingSignal)
  : PerformanceStats :=
  match executed_performances signals with
  | [] => mkPerformanceStats 0 0 0 0 0
  | first :: rest =>
      let performances := first :: rest in
      let positive_performances :=
        filter (λ p, Is_true (negb (Qle_bool p 0))) performances in
      mkPerformanceStats (length performances) (mean performances)
        (inject_Z (Z.of_nat (length positive_performances))
         / inject_Z (Z.of_nat (length performances)))%Q
        (list_max first rest) (list_min first rest)
  end.

(** *** SignalGenerator.generate_signal *)

(** What the caller reads of the signal a path created. *)
Record GeneratedSignal := mkGeneratedSignal {
  generated_signal_type : string;
  generated_confidence : Q;
  generated_source : string
}.

(** The tables the method queries: the tickers in primary-key order, the
    latest market-data snapshot of each ticker, and the articles. *)
Record Database := mkDatabase {
  tickers : list MarketTicker;
  latest_market_data : MarketTicker → option MarketData;
  articles : list NewsArticle
}.

Section GenerateSignal.

(** The market-data and the combined path store the technical indicators in
    the signal row they create; what they return depends on how the storage
    layer accepts that row. They are parameters here. *)
Variable _generate_market_data_signal :
  MarketTicker → option MarketData → option GeneratedSignal.
Variable _generate_combined_signal :
  MarketTicker → option MarketData → list NewsArticle → option GeneratedSignal.

(** [_create_signal_metadata] runs after the signal is chosen and swallows
    its own exceptions: it does not change what is returned. *)
Definition generate_signal (now : Z) (db : Database) (ticker_symbol : string)
    (source : string) : option GeneratedSignal :=
  match list_find (λ t, symbol t = ticker_symbol) (tickers db) with
  | None => None
  | Some (_, ticker) =>
      let latest := latest_market_data db ticker in
      let recent_articles :=
        _get_recent_articles now (articles db) ticker_symbol 7 in
      if String.eqb source "gpt_analysis" then
        match _generate_gpt_signal_created recent_articles with
        | Some c =>
            Some (mkGeneratedSignal (gpt_signal_type (created_scores c))
                    (gpt_confidence (created_scores c)) "gpt_analysis")
        | None => None
        end
      else if String.eqb source "market_data" then
        _generate_market_data_signal ticker latest
      else if String.eqb source "combined" then
        _generate_combined_signal ticker latest recent_articles
      else None
  end.

End GenerateSignal.

End signal_service.

(** ** main_app/models.py *)

Module models.
Import signal_service.

(** [Model.save()]: write the row under its primary key. *)
Definition save (s : TradingSignal) (signals : gmap Z TradingSignal)
  : gmap Z TradingSignal :=
  <[id s := s]> signals.

(** *** TradingSignal.calculate_performance

    Returns the method's result, the signal object afterwards and the table
    afterwards. *)
Definition calculate_performance (self : TradingSignal)
    (signals : gmap Z TradingSignal)
  : option Q * TradingSignal * gmap Z TradingSignal :=
  if opt_num_truthy (execution_price self) && opt_num_truthy (target_price self)
  then
    match execution_price self, target_price self with
    | Some execution, Some target =>
        let performance :=
          if bool_decide (signal_type self ∈ ["buy"; "strong_buy"])
          then ((target - execution) / execution)%Q
          else ((execution - target) / execution)%Q in
        let self' := set_performance_score (Some performance) self in
        (Some performance, self', save self' signals)
    | _, _ => (None, self, signals)
    end
  else (None, self, signals).

(** *** TradingSignal.is_expired, get_time_to_expiry *)

Definition is_expired (now : Z) (self : TradingSignal) : bool :=
  match expiry_time self with
  | Some t => (t <? now)%Z
  | None => false
  end.

(** The time left, as a duration in microseconds. *)
Definition get_time_to_expiry (now : Z) (self : TradingSignal) : option Z :=
  match expiry_time self with
  | Some t =>
      let delta := (t - now)%Z in
      if (0 <? delta)%Z then Some delta else None
  | None => None
  end.

(** *** MarketData.calculate_spread, calculate_price_change,
        calculate_price_change_percent *)

Definition calculate_spread (self : MarketData) : option Q :=
  if opt_num_truthy (bid_price self) && opt_num_truthy (ask_price self) then
    match bid_price self, ask_price self with
    | Some bid, Some ask => Some (ask - bid)%Q
    | _, _ => None
    end
  else None.

Definition calculate_price_change (self : MarketData) : option Q :=
  if opt_num_truthy (last_price self) && opt_num_truthy (close_price self) then
    match last_price self, close_price self with
    | Some last, Some close => Some (last - close)%Q
    | _, _ => None
    end
  else None.

Definition calculate_price_change_percent (self : MarketData) : option Q :=
  if opt_num_truthy (last_price self) && opt_num_truthy (close_price self) then
    match last_price self, close_price self with
    | Some last, Some close =>
        if negb (Qeq_bool close 0)
        then Some ((last - close) / close * 100)%Q
        else None
    | _, _ => None
    end
  else None.

(** *** HistoricalData.get_price_change, get_price_change_percent *)

Definition get_price_change (self : Bar) : Q :=
  (bar_close self - bar_open self)%Q.

Definition get_price_change_percent (self : Bar) : option Q :=
  if negb (Qeq_bool (bar_open self) 0)
  then Some ((bar_close self - bar_open self) / bar_open self * 100)%Q
  else None.

End models.

(** ** main_app/webhook_service.py *)

Module webhook_service.
Import signal_service.

(** *** Rows of the tables the service reads and writes *)

Record APISubscriber := mkAPISubscriber {
  subscriber_id : Z;
  name : string;
  webhook_url : string;
  api_key : string;
  secret_key : string;
  subscriber_status : string;
  subscribed_tickers : list string;
  min_confidence_threshold : Q;
  signal_types : list string
}.

Record SignalDelivery := mkSignalDelivery {
  delivery_signal : Z;
  delivery_subscriber : Z;
  delivery_method : string;
  delivery_status : string;
  delivery_attempts : nat;
  last_attempt : option Z;
  next_retry : option Z;
  error_message : string;
  delivered_at : option Z
}.

(** [unique_together = ['signal', 'subscriber']]: the pair is the key. *)
Definition delivery_key (d : SignalDelivery) : Z * Z :=
  (delivery_signal d, delivery_subscriber d).

(** *** The HTTP collaborator and the state the service acts on *)

Record Request := mkRequest {
  request_url : string;
  request_data : string;
  request_headers : list (string * string);
  request_timeout : Z
}.

(** What [requests.post] does: it returns a response, or raises a
    [requests.exceptions.RequestException]. *)
Inductive HttpOutcome :=
  | Response (status_code : Z) (text : string)
  | RequestException (message : string).

(** A call either returns a value or raises; the one exception modelled is
    the [NameError] of evaluating an unbound global name. *)
Inductive exn :=
  | NameError (name : string).

Inductive result (A : Type) :=
  | Ok (value : A)
  | Raise (e : exn).
Global Arguments Ok {A} value.
Global Arguments Raise {A} e.

(** The clock, the requests posted so far (oldest first) and the tables. *)
Record World := mkWorld {
  clock : Z;
  posted : list Request;
  deliveries : gmap (Z * Z) SignalDelivery;
  subscribers : list APISubscriber;
  signals : gmap Z TradingSignal
}.

Definition save_delivery (d : SignalDelivery) (w : World) : World :=
  mkWorld (clock w) (posted w) (<[delivery_key d := d]> (deliveries w))
    (subscribers w) (signals w).

Definition record_post (r : Request) (w : World) : World :=
  mkWorld (clock w) (posted w ++ [r]) (deliveries w) (subscribers w)
    (signals w).

(** [time.sleep(delay)], [delay] in seconds. *)
Definition sleep (delay : Z) (w : World) : World :=
  mkWorld (clock w + delay * 1000000)%Z (posted w) (deliveries w)
    (subscribers w) (signals w).

(** The body of [_prepare_signal_payload] (the fields carried by the rows
    modelled here). *)
Record Payload := mkPayload {
  payload_event_type : string;
  payload_signal_id : Z;
  payload_ticker : MarketTicker;
  payload_signal_type : string;
  payload_confidence : Q
}.

Definition _prepare_signal_payload (signal : TradingSignal) : Payload :=
  mkPayload "trading_signal" (id signal) (ticker signal) (signal_type signal)
    (confidence signal).

(** *** WebhookDeliveryService.__init__ *)

Definition max_retry_attempts : nat := 5.
Definition retry_delays : list Z := [1; 5; 15; 60; 300]%Z.

Section Service.

(** [json.dumps], [api_auth.generate_webhook_signature] and the behaviour of
    the subscribers' endpoints: the outcome of a POST may depend on the
    request and on how many requests were posted before it. *)
Variable json_dumps : Payload → string.
Variable generate_webhook_signature : string → string → string.
Variable endpoint : nat → Request → HttpOutcome.

(** *** WebhookDeliveryService._deliver_webhook *)

Definition begin_attempt (attempt : nat) (d : SignalDelivery) (now : Z)
  : SignalDelivery :=
  mkSignalDelivery (delivery_signal d) (delivery_subscriber d)
    (delivery_method d)
    (if (0 <? attempt)%nat then "retrying" else "pending")
    (delivery_attempts d + 1) (Some now) (next_retry d) (error_message d)
    (delivered_at d).

Definition mark_delivered (d : SignalDelivery) (now : Z) : SignalDelivery :=
  mkSignalDelivery (delivery_signal d) (delivery_subscriber d)
    (delivery_method d) "delivered" (delivery_attempts d) (last_attempt d)
    (next_retry d) "" (Some now).

Definition set_error_message (msg : string) (d : SignalDelivery)
  : SignalDelivery :=
  mkSignalDelivery (delivery_signal d) (delivery_subscriber d)
    (delivery_method d) (delivery_status d) (delivery_attempts d)
    (last_attempt d) (next_retry d) msg (delivered_at d).

Definition set_next_retry (t : Z) (d : SignalDelivery) : SignalDelivery :=
  mkSignalDelivery (delivery_signal d) (delivery_subscriber d)
    (delivery_method d) (delivery_status d) (delivery_attempts d)
    (last_attempt d) (Some t) (error_message d) (delivered_at d).

Definition set_delivery_status (st : string) (d : SignalDelivery)
  : SignalDelivery :=
  mkSignalDelivery (delivery_signal d) (delivery_subscriber d)
    (delivery_method d) st (delivery_attempts d) (last_attempt d)
    (next_retry d) (error_message d) (delivered_at d).

(** The "wait before retry" tail of one iteration. The index into
    [retry_delays] is below 4 there, hence in range. *)
Definition wait_before_retry (attempt : nat) (d : SignalDelivery) (w : World)
  : SignalDelivery * World :=
  if (attempt <? max_retry_attempts - 1)%nat then
    let delay := default 0%Z (retry_delays !! attempt) in
    let d := set_next_retry (clock w + delay * 1000000)%Z d in
    (d, sleep delay (save_delivery d w))
  else (d, w).

(** The [for attempt in range(self.max_retry_attempts)] loop. [Some true] is
    the [return True] inside the loop; [None] means the loop ran to its end. *)
Fixpoint attempt_loop (attempts : list nat) (url payload_json : string)
    (headers : list (string * string)) (d : SignalDelivery) (w : World)
  : option bool * SignalDelivery * World :=
  match attempts with
  | [] => (None, d, w)
  | attempt :: rest =>
      let d := begin_attempt attempt d (clock w) in
      let w := save_delivery d w in
      let request := mkRequest url payload_json headers 30 in
      let outcome := endpoint (length (posted w)) request in
      let w := record_post request w in
      match outcome with
      | Response status_code text =>
          if (status_code =? 200)%Z then
            let d := mark_delivered d (clock w) in
            (Some true, d, save_delivery d w)
          else
            let error_msg := "HTTP " ++ pretty status_code ++ ": " ++ text in
            let d := set_error_message error_msg d in
            let '(d, w) := wait_before_retry attempt d (save_delivery d w) in
            attempt_loop rest url payload_json headers d w
      | RequestException e =>
          let error_msg := "Request error: " ++ e in
          let d := set_error_message error_msg d in
          let '(d, w) := wait_before_retry attempt d (save_delivery d w) in
          attempt_loop rest url payload_json headers d w
      end
  end.

Definition _deliver_webhook (subscriber : APISubscriber) (payload : Payload)
    (delivery : SignalDelivery) (w : World) : bool * SignalDelivery * World :=
  let payload_json := json_dumps payload in
  let signature :=
    generate_webhook_signature (secret_key subscriber) payload_json in
  let headers :=
    [("Content-Type", "application/json");
     ("X-API-Key", api_key subscriber);
     ("X-Webhook-Signature", signature);
     ("X-Webhook-Event", "trading_signal");
     ("User-Agent", "TradingPro-Webhook/1.0")] in
  match attempt_loop (seq 0 max_retry_attempts) (webhook_url subscriber)
          payload_json headers delivery w with
  | (Some result, d, w) => (result, d, w)
  | (None, d, w) =>
      let d := set_delivery_status "failed" d in
      (false, d, save_delivery d w)
  end.

(** *** WebhookDeliveryService.deliver_signal_to_subscriber *)

(** [SignalDelivery.objects.get_or_create(signal=, subscriber=, defaults=)]. *)
Definition get_or_create_delivery (signal : TradingSignal)
    (subscriber : APISubscriber) (w : World) : SignalDelivery * bool * World :=
  match deliveries w !! (id signal, subscriber_id subscriber) with
  | Some d => (d, false, w)
  | None =>
      let d := mkSignalDelivery (id signal) (subscriber_id subscriber)
                 "webhook" "pending" 0 None None "" None in
      (d, true, save_delivery d w)
  end.

Definition deliver_signal_to_subscriber (signal : TradingSignal)
    (subscriber : APISubscriber) (w : World) : bool * World :=
  if negb (str_truthy (webhook_url subscriber)) then (false, w)
  else
    let '(delivery, created, w) := get_or_create_delivery signal subscriber w in
    if negb created && String.eqb (delivery_status delivery) "delivered"
    then (true, w)
    else
      let payload := _prepare_signal_payload signal in
      let '(success, _, w) := _deliver_webhook subscriber payload delivery w in
      (success, w).

(** *** WebhookDeliveryService.deliver_signal_to_all_subscribers *)

(** The names bound at module level in [webhook_service.py]: its imports,
    the logger, the class, the service instance and the task function. *)
Definition module_globals : list string :=
  ["json"; "requests"; "time"; "timezone"; "settings"; "timedelta";
   "APISubscriber"; "SignalDelivery"; "TradingSignal";
   "generate_webhook_signature"; "logging"; "logger";
   "WebhookDeliveryService"; "webhook_service"; "deliver_signal_webhook"].

(** Evaluating a global name that is neither a local nor a builtin. *)
Definition load_global (name : string) : result unit :=
  if bool_decide (name ∈ module_globals) then Ok tt else Raise (NameError name).

(** The base queryset: [filter(status='active', webhook_url__isnull=False)
    .exclude(webhook_url='')]. *)
Definition active_with_webhook (s : APISubscriber) : bool :=
  String.eqb (subscriber_status s) "active"
  && negb (String.eqb (webhook_url s) "").

(** [Q(f__contains=[x]) | Q(f__isnull=True) | Q(f=[])] on a JSON list. *)
Definition allowlist_admits (allowlist : list string) (x : string) : bool :=
  bool_decide (x ∈ allowlist) || bool_decide (allowlist = []).

Fixpoint deliver_each (signal : TradingSignal) (subs : list APISubscriber)
    (w : World) : list (string * bool) * World :=
  match subs with
  | [] => ([], w)
  | subscriber :: rest =>
      let '(success, w) := deliver_signal_to_subscriber signal subscriber w in
      let '(results, w) := deliver_each signal rest w in
      ((name subscriber, success) :: results, w)
  end.

(** [signal.ticker] is a related model instance and [signal.signal_type] a
    string. Each of the two guarded filters first evaluates the name [Q];
    the ticker allowlist holds symbols, and the containment test is written
    here against the ticker's symbol. *)
Definition deliver_signal_to_all_subscribers (signal : TradingSignal)
    (w : World) : result (list (string * bool)) * World :=
  let subs := filter (λ s, Is_true (active_with_webhook s)) (subscribers w) in
  let by_ticker : result (list APISubscriber) :=
    if instance_truthy (ticker signal) then
      match load_global "Q" with
      | Raise e => Raise e
      | Ok _ =>
          Ok (filter (λ s, Is_true (allowlist_admits (subscribed_tickers s)
                                      (symbol (ticker signal)))) subs)
      end
    else Ok subs in
  match by_ticker with
  | Raise e => (Raise e, w)
  | Ok subs =>
      let subs :=
        filter (λ s, Is_true (Qle_bool (min_confidence_threshold s)
                                (confidence signal))) subs in
      let by_type : result (list APISubscriber) :=
        if str_truthy (signal_type signal) then
          match load_global "Q" with
          | Raise e => Raise e
          | Ok _ =>
              Ok (filter (λ s, Is_true (allowlist_admits (signal_types s)
                                          (signal_type signal))) subs)
          end
        else Ok subs in
      match by_type with
      | Raise e => (Raise e, w)
      | Ok subs =>
          let '(delivery_results, w) := deliver_each signal subs w in
          (Ok delivery_results, w)
      end
  end.

(** *** WebhookDeliveryService.retry_failed_deliveries *)

(** [filter(status='failed', next_retry__lte=now,
    delivery_attempts__lt=self.max_retry_attempts)]. *)
Definition retry_due (now : Z) (d : SignalDelivery) : bool :=
  String.eqb (delivery_status d) "failed"
  && match next_retry d with
     | Some t => (t <=? now)%Z
     | None => false
     end
  && (delivery_attempts d <? max_retry_attempts)%nat.

Definition failed_deliveries (now : Z) (w : World) : list SignalDelivery :=
  filter (λ d, Is_true (retry_due now d)) (snd <$> map_to_list (deliveries w)).



(** *** deliver_signal_webhook

    [Ok None] is the [False] returned for an unknown signal id. *)
Definition deliver_signal_webhook (signal_id : Z) (w : World)
  : result (option (list (string * bool))) * World :=
  match signals w !! signal_id with
  | None => (Ok None, w)
  | Some signal =>
      match deliver_signal_to_all_subscribers signal w with
      | (Ok delivery_results, w) => (Ok (Some delivery_results), w)
      | (Raise e, w) => (Raise e, w)
      end
  end.

End Service.

(** *** WebhookDeliveryService.get_delivery_stats *)

Record DeliveryStats := mkDeliveryStats {
  total_deliveries : nat;
  stats_delivered : nat;
  stats_failed : nat;
  stats_pending : nat;
  stats_retrying : nat;
  stats_success_rate : Q
}.

Definition count_status (st : string) (ds : list SignalDelivery) : nat :=
  length (filter (λ d, delivery_status d = st) ds).

Definition get_delivery_stats (subscriber : option APISubscriber) (w : World)
  : DeliveryStats :=
  let all_rows := (map_to_list (deliveries w)).*2 in
  let rows :=
    match subscriber with
    | Some s =>
        filter (λ d, delivery_subscriber d = subscriber_id s) all_rows
    | None => all_rows
    end in
  let total := length rows in
  let delivered := count_status "delivered" rows in
  mkDeliveryStats total delivered (count_status "failed" rows)
    (count_status "pending" rows) (count_status "retrying" rows)
    (if (0 <? total)%nat
     then (inject_Z (Z.of_nat delivered) / inject_Z (Z.of_nat total) * 100)%Q
     else 0%Q).

End webhook_service.

(** ** main_app/api_auth.py and the rate-limit methods of APISubscriber *)

Module api_auth.
Import signal_service webhook_service.

(** A subscriber row with the counters the rate limit uses. *)
Record Account := mkAccount {
  account_subscriber : APISubscriber;
  request_count : nat;
  last_accessed : option Z;
  rate_limit_per_hour : nat
}.

(** [api_key] is unique: the accounts table is keyed by it. *)
Definition save_account (a : Account) (accounts : gmap string Account)
  : gmap string Account :=
  <[api_key (account_subscriber a) := a]> accounts.

Definition one_hour : Z := (3600 * 1000000)%Z.

(** *** APISubscriber.is_rate_limited

    Returns the answer, the object afterwards and the table afterwards. *)
Definition is_rate_limited (now : Z) (self : Account)
    (accounts : gmap string Account) : bool * Account * gmap string Account :=
  let stale :=
    match last_accessed self with
    | Some t => (one_hour <? now - t)%Z
    | None => false
    end in
  let '(self, accounts) :=
    if stale then
      let self := mkAccount (account_subscriber self) 0 (last_accessed self)
                    (rate_limit_per_hour self) in
      (self, save_account self accounts)
    else (self, accounts) in
  ((rate_limit_per_hour self <=? request_count self)%nat, self, accounts).

(** *** APISubscriber.increment_request_count *)
Definition increment_request_count (now : Z) (self : Account)
    (accounts : gmap string Account) : Account * gmap string Account :=
  let self := mkAccount (account_subscriber self) (request_count self + 1)
                (Some now) (rate_limit_per_hour self) in
  (self, save_account self accounts).

(** *** api_key_required

    The decorated view receives the subscriber object and returns the status
    of its response together with the object as it left it (a view may
    assign fields of the object) and the table as it left it. The access log
    is written through [log_api_access], which swallows its own failures and
    touches no other table; it is omitted. *)
Definition View : Type :=
  Account → gmap string Account → Z * Account * gmap string Account.

Definition api_key_required (view_func : View) (now : Z)
    (header_api_key : option string) (accounts : gmap string Account)
  : Z * gmap string Account :=
  if negb (opt_str_truthy header_api_key) then (401%Z, accounts)
  else
    match header_api_key ≫= (λ k, accounts !! k) with
    | None => (401%Z, accounts)
    | Some subscriber =>
        if negb (String.eqb (subscriber_status (account_subscriber subscriber))
                   "active")
        then (403%Z, accounts)
        else
          let '(limited, subscriber, accounts) :=
            is_rate_limited now subscriber accounts in
          if limited then (429%Z, accounts)
          else
            let '(status_code, subscriber, accounts) :=
              view_func subscriber accounts in
            let '(_, accounts) :=
              increment_request_count now subscriber accounts in
            (status_code, accounts)
    end.

End api_auth.

(** ** main_app/api_views.py *)

Module api_views.
Import signal_service webhook_service api_auth.

(** *** SignalSubscriptionAPIView.post

    The request body: not JSON at all, or an object whose fields, when
    present, carry a list of symbols, a threshold ([None] when [float]
    rejects the value), a list of type names and a URL. *)
Record SubscriptionUpdate := mkSubscriptionUpdate {
  update_subscribed_tickers : option (list string);
  update_min_confidence_threshold : option (option Q);
  update_signal_types : option (list string);
  update_webhook_url : option string
}.

Inductive RequestBody :=
  | InvalidJson
  | JsonObject (fields : SubscriptionUpdate).

Definition set_subscribed_tickers (v : list string) (a : Account) : Account :=
  let s := account_subscriber a in
  mkAccount
    (mkAPISubscriber (subscriber_id s) (name s) (webhook_url s) (api_key s)
       (secret_key s) (subscriber_status s) v (min_confidence_threshold s)
       (signal_types s))
    (request_count a) (last_accessed a) (rate_limit_per_hour a).

Definition set_min_confidence_threshold (v : Q) (a : Account) : Account :=
  let s := account_subscriber a in
  mkAccount
    (mkAPISubscriber (subscriber_id s) (name s) (webhook_url s) (api_key s)
       (secret_key s) (subscriber_status s) (subscribed_tickers s) v
       (signal_types s))
    (request_count a) (last_accessed a) (rate_limit_per_hour a).

Definition set_signal_types (v : list string) (a : Account) : Account :=
  let s := account_subscriber a in
  mkAccount
    (mkAPISubscriber (subscriber_id s) (name s) (webhook_url s) (api_key s)
       (secret_key s) (subscriber_status s) (subscribed_tickers s)
       (min_confidence_threshold s) v)
    (request_count a) (last_accessed a) (rate_limit_per_hour a).

Definition set_webhook_url (v : string) (a : Account) : Account :=
  let s := account_subscriber a in
  mkAccount
    (mkAPISubscriber (subscriber_id s) (name s) v (api_key s)
       (secret_key s) (subscriber_status s) (subscribed_tickers s)
       (min_confidence_threshold s) (signal_types s))
    (request_count a) (last_accessed a) (rate_limit_per_hour a).

Definition valid_types : list string := ["buy"; "sell"; "hold"].

(** A step of the handler either goes on with the object or returns a
    response at once, leaving the object as it is at that point. *)
Inductive step :=
  | Continue (subscriber : Account)
  | Respond (status_code : Z) (subscriber : Account).

Definition and_then (s : step) (k : Account → step) : step :=
  match s with
  | Continue subscriber => k subscriber
  | Respond _ _ => s
  end.

Definition assign_subscribed_tickers (data : SubscriptionUpdate)
    (subscriber : Account) : step :=
  match update_subscribed_tickers data with
  | Some v => Continue (set_subscribed_tickers v subscriber)
  | None => Continue subscriber
  end.

(** [float(...)] raising is caught by [except Exception]: status 500. *)
Definition assign_min_confidence_threshold (data : SubscriptionUpdate)
    (subscriber : Account) : step :=
  match update_min_confidence_threshold data with
  | Some None => Respond 500 subscriber
  | Some (Some threshold) =>
      if Qle_bool 0 threshold && Qle_bool threshold 1
      then Continue (set_min_confidence_threshold threshold subscriber)
      else Respond 400 subscriber
  | None => Continue subscriber
  end.

Definition assign_signal_types (data : SubscriptionUpdate)
    (subscriber : Account) : step :=
  match update_signal_types data with
  | Some types =>
      if forallb (λ t, bool_decide (t ∈ valid_types)) types
      then Continue (set_signal_types types subscriber)
      else Respond 400 subscriber
  | None => Continue subscriber
  end.

Definition assign_webhook_url (data : SubscriptionUpdate)
    (subscriber : Account) : step :=
  match update_webhook_url data with
  | Some v => Continue (set_webhook_url v subscriber)
  | None => Continue subscriber
  end.

Definition subscription_post (body : RequestBody) : View :=
  λ subscriber accounts,
  match body with
  | InvalidJson => (400%Z, subscriber, accounts)
  | JsonObject data =>
      match and_then
              (and_then
                 (and_then (assign_subscribed_tickers data subscriber)
                    (assign_min_confidence_threshold data))
                 (assign_signal_types data))
              (assign_webhook_url data) with
      | Continue subscriber =>
          (200%Z, subscriber, save_account subscriber accounts)
      | Respond status_code subscriber => (status_code, subscriber, accounts)
      end
  end.

(** *** TradingSignalsAPIView.post

    The request body: not JSON, or an object whose [ticker] entry is absent,
    is not a string, or is a string ([.upper()] is taken on ASCII letters).
    The handler asks the generator for the source ['api_request']. *)
Inductive SignalRequestBody :=
  | SignalInvalidJson
  | TickerAbsent
  | TickerNotAString
  | Ticker (value : string).

Section SignalsPost.

Variable _generate_market_data_signal :
  MarketTicker → option MarketData → option GeneratedSignal.
Variable _generate_combined_signal :
  MarketTicker → option MarketData → list NewsArticle → option GeneratedSignal.

Definition signals_post (now : Z) (db : Database) (body : SignalRequestBody)
  : View :=
  λ subscriber accounts,
  match body with
  | SignalInvalidJson => (400%Z, subscriber, accounts)
  | TickerNotAString => (500%Z, subscriber, accounts)
  | TickerAbsent => (400%Z, subscriber, accounts)
  | Ticker value =>
      let ticker := str_upper value in
      if negb (str_truthy ticker) then (400%Z, subscriber, accounts)
      else
        let allowed := subscribed_tickers (account_subscriber subscriber) in
        if negb (bool_decide (allowed = []))
           && negb (bool_decide (ticker ∈ allowed))
        then (403%Z, subscriber, accounts)
        else
          match generate_signal _generate_market_data_signal
                  _generate_combined_signal now db ticker "api_request" with
          | Some _ => (200%Z, subscriber, accounts)
          | None => (500%Z, subscriber, accounts)
          end
  end.

End SignalsPost.

End api_views.

(** ** Vocabulary of the properties *)

Import signal_service models webhook_service.

(** An article mentions a ticker symbol when its title, content or summary
    contains the symbol as a substring, compared exactly. *)
Definition mentions (ticker_symbol : string) (a : NewsArticle) : Prop :=
  str_in ticker_symbol (title a) = true
  ∨ str_in ticker_symbol (content a) = true
  ∨ ∃ s, summary a = Some s ∧ str_in ticker_symbol s = true.

(** The same, compared without regard to the case of ASCII letters. *)
Definition mentions_ignoring_case (ticker_symbol : string) (a : NewsArticle)
  : Prop :=
  str_in (str_upper ticker_symbol) (str_upper (title a)) = true
  ∨ str_in (str_upper ticker_symbol) (str_upper (content a)) = true
  ∨ ∃ s, summary a = Some s
         ∧ str_in (str_upper ticker_symbol) (str_upper s) = true.

(** A signal is due to expire at [now] when it is active and its expiry
    time is set and earlier than [now]. *)
Definition expiry_passed (now : Z) (s : TradingSignal) : Prop :=
  status s = "active" ∧ ∃ t, expiry_time s = Some t ∧ (t < now)%Z.

(** A confidence that is missing or zero, replaced by one half. *)
Definition default_missing (c : option Q) : option Q :=
  match c with
  | None => Some (1 # 2)%Q
  | Some x => if Qeq_bool x 0 then Some (1 # 2)%Q else Some x
  end.

(** An article with each missing or zero confidence replaced by one half. *)
Definition as_half_confident (a : NewsArticle) : NewsArticle :=
  mkNewsArticle (article_id a) (title a) (content a) (summary a)
    (gpt_sentiment a) (default_missing (gpt_sentiment_confidence a))
    (gpt_impact a) (default_missing (gpt_impact_confidence a))
    (scraped_date a).

(** A POST succeeded when it returned a response with status 200. *)
Definition is_success (o : HttpOutcome) : bool :=
  match o with
  | Response status_code _ => (status_code =? 200)%Z
  | RequestException _ => false
  end.

(** The subscribers the delivery fan-out is to reach for a signal: active,
    with a webhook URL, and passing the ticker, confidence and signal-type
    filters. *)
Definition should_receive (signal : TradingSignal) (s : APISubscriber) : bool :=
  String.eqb (subscriber_status s) "active"
  && negb (String.eqb (webhook_url s) "")
  && (bool_decide (subscribed_tickers s = [])
      || bool_decide (symbol (ticker signal) ∈ subscribed_tickers s))
  && Qle_bool (min_confidence_threshold s) (confidence signal)
  && (bool_decide (signal_types s = [])
      || bool_decide (signal_type signal ∈ signal_types s)).

(** A confidence, when present, lies in [0, 1]. *)
Definition in_unit (c : option Q) : Prop :=
  ∀ x, c = Some x → (0 <= x <= 1)%Q.

(** Both confidences of an article, when present, lie in [0, 1]. *)
Definition confidences_in_unit (a : NewsArticle) : Prop :=
  in_unit (gpt_sentiment_confidence a) ∧ in_unit (gpt_impact_confidence a).

(** The seconds slept by the attempts of a list when every one of them
    fails: an attempt waits its scheduled delay unless it is the last of the
    five. *)
Definition scheduled_delay (attempt : nat) : Z :=
  if (attempt <? max_retry_attempts - 1)%nat
  then default 0%Z (retry_delays !! attempt) else 0%Z.

Definition total_delay (attempts : list nat) : Z :=
  foldr (λ attempt acc, (scheduled_delay attempt + acc)%Z) 0%Z attempts.

(** An endpoint that fails twice and then answers 200. *)
Definition third_time_lucky (n : nat) (r : Request) : HttpOutcome :=
  match n with
  | 0 => Response 503 "Service Unavailable"
  | 1 => RequestException "timed out"
  | _ => Response 200 "OK"
  end.

(** An account's counter is stale when its last access is set and lies
    more than an hour before [now]. *)
Definition stale (now : Z) (a : api_auth.Account) : Prop :=
  ∃ t, api_auth.last_accessed a = Some t ∧ (api_auth.one_hour < now - t)%Z.

(** The subscription preferences the update handler accepts: a threshold in
    [0, 1] and signal types among [buy], [sell] and [hold]. *)
Definition valid_preferences (a : api_auth.Account) : Prop :=
  (0 <= min_confidence_threshold (api_auth.account_subscriber a) <= 1)%Q
  ∧ Forall (λ t, t ∈ api_views.valid_types)
      (signal_types (api_auth.account_subscriber a)).

(** ** Sample data for the concrete instances *)

Definition sample_ticker : MarketTicker :=
  mkMarketTicker "AAPL" "SMART" "STK" "USD".

Definition sample_signal : TradingSignal :=
  mkTradingSignal 7 sample_ticker "buy" (8 # 10) "active" None None None None.

(** An active subscriber with a webhook URL, no ticker or type restriction
    and a confidence threshold of one half. *)
Definition sample_subscriber : APISubscriber :=
  mkAPISubscriber 3 "desk" "https://desk.example/hook" "tp_key" "secret"
    "active" [] (1 # 2) [].

(** The same subscriber with the webhook URL cleared. *)
Definition sample_subscriber_without_url : APISubscriber :=
  mkAPISubscriber 3 "desk" "" "tp_key" "secret" "active" [] (1 # 2) [].

Definition sample_pending_delivery : SignalDelivery :=
  mkSignalDelivery 7 3 "webhook" "pending" 0 None None "" None.

Definition sample_delivered_delivery : SignalDelivery :=
  mkSignalDelivery 7 3 "webhook" "delivered" 1 (Some 10%Z) None "" (Some 11%Z).

Definition sample_world (rows : gmap (Z * Z) SignalDelivery) : World :=
  mkWorld 1000 [] rows [sample_subscriber] {[ 7%Z := sample_signal ]}.

Definition sample_json_dumps (p : Payload) : string := "{}".
Definition sample_signature (secret body : string) : string := "00".

(** An endpoint that answers every request with HTTP 500, and one that
    answers every request with HTTP 200. *)
Definition always_500 (n : nat) (r : Request) : HttpOutcome :=
  Response 500 "Internal Server Error".
Definition always_200 (n : nat) (r : Request) : HttpOutcome :=
  Response 200 "OK".

(** The sample subscriber as an account with a limit of two requests per
    hour, and a view that answers 200 and touches nothing. *)
Definition sample_account (count : nat) (last : option Z)
  : api_auth.Account :=
  api_auth.mkAccount sample_subscriber count last 2.

Definition sample_accounts (count : nat) (last : option Z)
  : gmap string api_auth.Account :=
  {[ "tp_key" := sample_account count last ]}.

Definition ok_view : api_auth.View :=
  λ subscriber accounts, (200%Z, subscriber, accounts).

(** * Properties *)

Open Scope nat_scope.
Open Scope list_scope.

(** ** Signal-type fusion *)

(** C1 (as stated) fails: a strong buy on the GPT side against a plain sell
    on the technical side fuses to [strong_buy], not to [hold], because the
    rule that a lone strong side wins is tried before the conflict rule. *)
Lemma combine_opposed_not_always_hold :
  "strong_buy" ∈ ["buy"; "strong_buy"] ∧
  "sell" ∈ ["sell"; "strong_sell"] ∧
  _combine_signal_types "strong_buy" "sell" ≠ "hold".
Proof.
  split; [set_solver|]. split; [set_solver|].
  vm_compute. discriminate.
Qed.

(** C1 (amended): for a GPT-side type in the buy family and a technical-side
    type in the sell family, the fused type is [hold] when both sides are
    strong or both are plain; when exactly one side is strong the fused type
    is that strong side's type. *)
Theorem combine_opposed_directions (gpt_type technical_type : string) :
  gpt_type ∈ ["buy"; "strong_buy"] →
  technical_type ∈ ["sell"; "strong_sell"] →
  _combine_signal_types gpt_type technical_type =
    if Bool.eqb (str_in "strong" gpt_type) (str_in "strong" technical_type)
    then "hold"
    else if str_in "strong" gpt_type then gpt_type else technical_type.
Proof.
  intros Hg Ht.
  repeat (apply elem_of_cons in Hg as [->|Hg]);
    [| |by apply elem_of_nil in Hg];
    (repeat (apply elem_of_cons in Ht as [->|Ht]);
      [| |by apply elem_of_nil in Ht]);
    reflexivity.
Qed.

(** The fusion rule at a plain buy against a strong sell. *)
Lemma combine_opposed_directions_witness :
  "buy" ∈ ["buy"; "strong_buy"] ∧
  "strong_sell" ∈ ["sell"; "strong_sell"] ∧
  _combine_signal_types "buy" "strong_sell" = "strong_sell".
Proof.
  assert (Hg : "buy" ∈ ["buy"; "strong_buy"]) by repeat constructor.
  assert (Ht : "strong_sell" ∈ ["sell"; "strong_sell"]) by repeat constructor.
  split; [exact Hg|]. split; [exact Ht|].
  exact (combine_opposed_directions "buy" "strong_sell" Hg Ht).
Defined.

(** ** Article selection *)

Global Instance newer_first_trans : Transitive newer_first.
Proof. unfold newer_first. intros a b c. lia. Qed.

Global Instance newer_first_total : Total newer_first.
Proof. unfold newer_first. intros a b. lia. Qed.

Lemma article_filter_spec ticker_symbol cutoff a :
  Is_true (article_filter ticker_symbol cutoff a) ↔
  mentions_ignoring_case ticker_symbol a ∧ (cutoff ≤ scraped_date a)%Z.
Proof.
  unfold article_filter, mentions_ignoring_case, icontains, opt_icontains.
  rewrite andb_True, !orb_True, !Is_true_true, Z.leb_le.
  split.
  - intros [[[H|H]|H] Hd]; split; auto.
    destruct (summary a) as [s|]; [|discriminate]. right; right; eauto.
  - intros [[H|[H|(s & Hs & H)]] Hd]; split; auto.
    rewrite Hs. auto.
Qed.

(** C3 (as stated) fails: the lookup is [icontains], which ignores case. An
    article whose title spells the symbol in lower case is selected although
    no field of it contains the symbol as written. *)
Lemma recent_articles_ignore_case :
  let a := mkNewsArticle 1 "aapl rallies" "shares rose" None None None None
             None 1000%Z in
  a ∈ _get_recent_articles 1000 [a] "AAPL" 7 ∧ ¬ mentions "AAPL" a.
Proof.
  split.
  - vm_compute. constructor.
  - intros [H|[H|(s & Hs & _)]]; vm_compute in *; discriminate.
Qed.

(** C3 (amended): for every ticker symbol the selection returns at most 10
    articles, newest first; every returned article is a row of the table
    scraped within the last 7 days that mentions the symbol ignoring case;
    the returned articles together with the ones left out are exactly the
    rows that pass this test, no left-out article is more recent than a
    returned one, and articles are left out only when 10 are returned. *)
Theorem recent_articles_selection (now : Z) (articles_table : list NewsArticle)
    (ticker_symbol : string) :
  let cutoff := (now - timedelta_days 7)%Z in
  let selected := _get_recent_articles now articles_table ticker_symbol 7 in
  (length selected ≤ 10)%nat
  ∧ StronglySorted newer_first selected
  ∧ (∀ a, a ∈ selected →
          a ∈ articles_table
          ∧ mentions_ignoring_case ticker_symbol a
          ∧ (cutoff ≤ scraped_date a)%Z)
  ∧ ∃ left_out,
      selected ++ left_out
        ≡ₚ filter (λ a, Is_true (article_filter ticker_symbol cutoff a))
             articles_table
      ∧ (∀ a, Is_true (article_filter ticker_symbol cutoff a) ↔
              mentions_ignoring_case ticker_symbol a
              ∧ (cutoff ≤ scraped_date a)%Z)
      ∧ (∀ a b, a ∈ selected → b ∈ left_out →
                (scraped_date b ≤ scraped_date a)%Z)
      ∧ (left_out = [] ∨ length selected = 10).
Proof.
  intros cutoff selected. unfold selected, _get_recent_articles.
  fold cutoff.
  set (passing := filter (λ a, Is_true (article_filter ticker_symbol cutoff a))
                    articles_table).
  set (sorted := merge_sort newer_first passing).
  assert (Hperm : sorted ≡ₚ passing) by apply merge_sort_Permutation.
  assert (Hsorted : StronglySorted newer_first sorted)
    by (apply StronglySorted_merge_sort; apply _).
  assert (Hmem : ∀ a, a ∈ sorted ↔
            a ∈ articles_table ∧ mentions_ignoring_case ticker_symbol a
            ∧ (cutoff ≤ scraped_date a)%Z).
  { intros a. rewrite Hperm. unfold passing.
    rewrite list_elem_of_filter, article_filter_spec. tauto. }
  rewrite <- (take_drop 10 sorted) in Hsorted.
  split; [rewrite length_take; lia|].
  split; [by eapply StronglySorted_app_1_l|].
  split.
  { intros a Ha. apply Hmem. by eapply subseteq_take. }
  exists (drop 10 sorted). rewrite take_drop.
  split; [exact Hperm|].
  split; [intros a; apply article_filter_spec|].
  split.
  { intros a b Ha Hb.
    exact (StronglySorted_app_1_elem_of _ _ _ _ _ Hsorted Ha Hb). }
  destruct (decide (length sorted ≤ 10)%nat) as [Hle|Hgt].
  - left. by apply drop_ge.
  - right. rewrite length_take. lia.
Qed.

(** ** Relative strength index *)

Lemma Qsum_nonneg (l : list Q) : Forall (Qle 0) l → (0 <= Qsum l)%Q.
Proof.
  induction 1 as [|x l Hx _ IH]; simpl; [apply Qle_refl|].
  replace 0%Q with (0 + 0)%Q by reflexivity. by apply Qplus_le_compat.
Qed.

Lemma Qsum_zero (l : list Q) : Forall (λ x, x = 0%Q) l → Qsum l = 0%Q.
Proof. induction 1 as [|x l -> _ IH]; simpl; [done|]. by rewrite IH. Qed.

Lemma Qdiv_nonneg (x y : Q) : (0 <= x)%Q → (0 <= y)%Q → (0 <= x / y)%Q.
Proof.
  intros Hx Hy. unfold Qdiv. apply Qmult_le_0_compat; [done|].
  by apply Qinv_le_0_compat.
Qed.

Lemma inject_nat_nonneg (n : nat) : (0 <= inject_Z (Z.of_nat n))%Q.
Proof. change 0%Q with (inject_Z 0). rewrite <- Zle_Qle. lia. Qed.

Lemma mean_nonneg (l : list Q) : Forall (Qle 0) l → (0 <= mean l)%Q.
Proof.
  intros Hl. unfold mean.
  apply Qdiv_nonneg; [by apply Qsum_nonneg | apply inject_nat_nonneg].
Qed.

Lemma last_n_Forall {A} (P : A → Prop) (n : nat) (l : list A) :
  Forall P l → Forall P (last_n n l).
Proof. intros Hl. destruct n; simpl; [done|]. by apply Forall_drop. Qed.

(** With a non-negative relative strength the index lies in the range. *)
Lemma rsi_formula_range (rs : Q) :
  (0 <= rs)%Q → (0 <= 100 - 100 / (1 + rs) <= 100)%Q.
Proof.
  intros Hrs.
  assert (Hpos : (0 < 1 + rs)%Q) by lra.
  assert (H0 : (0 <= 100 / (1 + rs))%Q) by (apply Qdiv_nonneg; lra).
  assert (H1 : (100 / (1 + rs) <= 100)%Q) by (apply Qle_shift_div_r; lra).
  lra.
Qed.

(** The deltas of strictly increasing prices are all positive. *)
Lemma price_deltas_increasing (prices : list Q) :
  Sorted Qlt prices → Forall (λ d, (0 < d)%Q) (price_deltas prices).
Proof.
  unfold price_deltas.
  induction 1 as [|p l Hs IH Hd]; simpl; [constructor|].
  destruct l as [|q l]; simpl in *; [constructor|].
  constructor; [|exact IH].
  apply HdRel_inv in Hd. lra.
Qed.

(** C6: the index with period 14 always lies in [0, 100]; it is exactly 50
    for fewer than 15 prices, and exactly 100 for at least 15 strictly
    increasing prices. *)
Theorem rsi_range_and_fixed_values (prices : list Q) :
  (0 <= _calculate_rsi prices 14 <= 100)%Q
  ∧ (length prices < 15 → _calculate_rsi prices 14 = 50%Q)
  ∧ (15 ≤ length prices → Sorted Qlt prices →
     _calculate_rsi prices 14 = 100%Q).
Proof.
  unfold _calculate_rsi.
  set (gains := map (λ d, if negb (Qle_bool d 0) then d else 0%Q) _).
  set (losses := map (λ d, if negb (Qle_bool 0 d) then (- d)%Q else 0%Q) _).
  split; [|split].
  - destruct (length prices <? 14 + 1) eqn:Hlen; [lra|].
    destruct (Qeq_bool (mean (last_n 14 losses)) 0) eqn:Hz; [lra|].
    apply rsi_formula_range.
    assert (Hg : Forall (Qle 0) gains).
    { apply Forall_map, Forall_true. intros d. simpl.
      destruct (Qle_bool d 0) eqn:Hd; simpl; [apply Qle_refl|].
      apply Qnot_lt_le. intros Hlt.
      apply Qlt_le_weak, Qle_bool_iff in Hlt. congruence. }
    assert (Hl : Forall (Qle 0) losses).
    { apply Forall_map, Forall_true. intros d. simpl.
      destruct (Qle_bool 0 d) eqn:Hd; simpl; [apply Qle_refl|].
      apply Qnot_lt_le. intros Hlt.
      assert (H0d : (0 <= d)%Q) by lra.
      apply Qle_bool_iff in H0d. congruence. }
    apply Qdiv_nonneg; apply mean_nonneg; by apply last_n_Forall.
  - intros Hlen.
    destruct (Nat.ltb_spec (length prices) (14 + 1)); [done|lia].
  - intros Hlen Hinc.
    destruct (Nat.ltb_spec (length prices) (14 + 1)); [lia|].
    assert (Hl : Forall (λ x, x = 0%Q) losses).
    { apply Forall_map.
      eapply Forall_impl; [by apply price_deltas_increasing|].
      intros d Hd. simpl in *.
      assert (H0d : (0 <= d)%Q) by lra.
      apply Qle_bool_iff in H0d. by rewrite H0d. }
    unfold mean. rewrite (Qsum_zero (last_n 14 losses)).
    + reflexivity.
    + by apply last_n_Forall.
Qed.

(** The index on three prices, and on the fifteen prices 1, 2, ..., 15. *)
Lemma rsi_range_and_fixed_values_witness :
  let rising := map (λ n, inject_Z (Z.of_nat n)) (seq 1 15) in
  _calculate_rsi [1; 2; 3]%Q 14 = 50%Q ∧ _calculate_rsi rising 14 = 100%Q.
Proof.
  intros rising. split.
  - apply (rsi_range_and_fixed_values [1; 2; 3]%Q). simpl. lia.
  - apply (rsi_range_and_fixed_values rising).
    + simpl. lia.
    + unfold rising. simpl.
      repeat (constructor; try reflexivity).
Defined.

(** ** Signal lifecycle and performance *)

Lemma expiry_due_spec (now : Z) (s : TradingSignal) :
  Is_true (expiry_due now s) ↔ expiry_passed now s.
Proof.
  unfold expiry_due, expiry_passed.
  rewrite andb_True, Is_true_true, String.eqb_eq.
  destruct (expiry_time s) as [t|].
  - rewrite Is_true_true, Z.ltb_lt. split.
    + intros [? ?]. eauto.
    + intros [? (t' & [= <-] & ?)]. done.
  - split; [intros [_ []] | intros [_ (t & [=] & _)]].
Qed.

(** A sweep over a table in which nothing is due changes nothing. *)
Lemma expire_nothing_due (now : Z) (signals : gmap Z TradingSignal) :
  (∀ k s, signals !! k = Some s → expiry_due now s = false) →
  expire_old_signals now signals = (0, signals).
Proof.
  intros Hnone. unfold expire_old_signals. f_equal.
  - apply map_size_empty_iff, map_empty. intros k.
    apply eq_None_not_Some. intros [s Hs].
    apply map_lookup_filter_Some in Hs as [Hs Hdue]. simpl in Hdue.
    rewrite (Hnone k s Hs) in Hdue. done.
  - apply map_eq. intros k. rewrite lookup_fmap.
    destruct (signals !! k) as [s|] eqn:Hs; simpl; [|done].
    by rewrite (Hnone k s Hs).
Qed.

(** C7: the sweep changes exactly the active signals whose expiry time is
    earlier than [now], setting their status to [expired] and nothing else;
    it returns how many they are; a second sweep at a time by which no
    further signal of the table has become due (in particular at the same
    [now]) returns 0 and leaves the table as it is. *)
Theorem expire_old_signals_exact_and_idempotent (now : Z)
    (signals : gmap Z TradingSignal) :
  let expired_count := (expire_old_signals now signals).1 in
  let after := (expire_old_signals now signals).2 in
  (∀ k, signals !! k = None → after !! k = None)
  ∧ (∀ k s, signals !! k = Some s → expiry_passed now s →
            after !! k = Some (set_status "expired" s))
  ∧ (∀ k s, signals !! k = Some s → ¬ expiry_passed now s →
            after !! k = Some s)
  ∧ (∃ due : gset Z,
        size due = expired_count
        ∧ ∀ k, k ∈ due ↔ ∃ s, signals !! k = Some s ∧ expiry_passed now s)
  ∧ expire_old_signals now after = (0, after)
  ∧ (∀ later,
        (∀ k s, signals !! k = Some s → expiry_passed later s →
                expiry_passed now s) →
        expire_old_signals later after = (0, after)).
Proof.
  intros expired_count after. unfold expired_count, after. simpl.
  assert (Hafter : ∀ later k s',
            ((λ s, if expiry_due now s then set_status "expired" s else s)
               <$> signals) !! k = Some s' →
            (∀ k s, signals !! k = Some s → expiry_passed later s →
                    expiry_passed now s) →
            expiry_due later s' = false).
  { intros later k s'. rewrite lookup_fmap.
    destruct (signals !! k) as [s|] eqn:Hs; simpl; [|done].
    intros [= <-] Hmono.
    destruct (expiry_due now s) eqn:Hdue; [done|].
    destruct (expiry_due later s) eqn:Hlater; [|done].
    assert (Hp : expiry_passed now s).
    { apply (Hmono k s Hs), expiry_due_spec. by rewrite Hlater. }
    apply expiry_due_spec in Hp. by rewrite Hdue in Hp. }
  repeat split.
  - intros k Hk. by rewrite lookup_fmap, Hk.
  - intros k s Hs Hp. rewrite lookup_fmap, Hs. simpl.
    apply expiry_due_spec, Is_true_true in Hp. by rewrite Hp.
  - intros k s Hs Hp. rewrite lookup_fmap, Hs. simpl.
    destruct (expiry_due now s) eqn:Hdue; [|done].
    exfalso. apply Hp, expiry_due_spec. by rewrite Hdue.
  - exists (dom (filter (λ kv, Is_true (expiry_due now kv.2)) signals)).
    split; [apply size_dom|].
    intros k. rewrite elem_of_dom. unfold is_Some.
    setoid_rewrite map_lookup_filter_Some. simpl.
    setoid_rewrite expiry_due_spec. done.
  - apply expire_nothing_due. intros k s' Hs'.
    apply (Hafter now k s' Hs'). auto.
  - intros later Hmono. apply expire_nothing_due. intros k s' Hs'.
    by apply (Hafter later k s' Hs').
Qed.

(** C8 (as stated) fails: the guard tests the truth value of the two prices,
    not whether they are set. With the execution price set to 100 and the
    target price set to 0 the method returns [None] and stores nothing, where
    the claim has it return (0 - 100) / 100. *)
Lemma calculate_performance_zero_target_price :
  let self := mkTradingSignal 1 (mkMarketTicker "AAPL" "SMART" "STK" "USD")
                "buy" (8 # 10) "executed" None (Some 0%Q) (Some 100%Q) None in
  execution_price self = Some 100%Q
  ∧ target_price self = Some 0%Q
  ∧ calculate_performance self ∅ = (None, self, ∅).
Proof. repeat split. Qed.

(** C8 (amended): the method returns [None] and changes nothing unless both
    prices are set and non-zero; when both are set and non-zero it computes
    (target - execution) / execution for [buy] and [strong_buy] and
    (execution - target) / execution for every other type, stores the value
    as the signal's performance score, saves the signal, and returns it. *)
Theorem calculate_performance_spec (self : TradingSignal)
    (signals : gmap Z TradingSignal) :
  (¬ (∃ execution target,
        execution_price self = Some execution
        ∧ target_price self = Some target
        ∧ ¬ (execution == 0)%Q ∧ ¬ (target == 0)%Q) →
   calculate_performance self signals = (None, self, signals))
  ∧ (∀ execution target,
        execution_price self = Some execution →
        target_price self = Some target →
        ¬ (execution == 0)%Q → ¬ (target == 0)%Q →
        let performance :=
          if bool_decide (signal_type self ∈ ["buy"; "strong_buy"])
          then ((target - execution) / execution)%Q
          else ((execution - target) / execution)%Q in
        let saved := set_performance_score (Some performance) self in
        let after := (calculate_performance self signals).2 in
        calculate_performance self signals = (Some performance, saved, after)
        ∧ performance_score saved = Some performance
        ∧ after !! id self = Some saved
        ∧ ∀ k, k ≠ id self → after !! k = signals !! k).
Proof.
  unfold calculate_performance, opt_num_truthy. split.
  - intros Hnot.
    destruct (execution_price self) as [e|] eqn:He; [|done].
    destruct (target_price self) as [t|] eqn:Ht;
      [|by rewrite andb_false_r].
    destruct (Qeq_bool e 0) eqn:He0; [done|].
    destruct (Qeq_bool t 0) eqn:Ht0; [done|].
    exfalso. apply Hnot. exists e, t.
    repeat split; try done; intros Hz%Qeq_bool_iff; congruence.
  - intros e t -> -> He Ht.
    destruct (Qeq_bool e 0) eqn:He0;
      [by apply Qeq_bool_iff in He0|].
    destruct (Qeq_bool t 0) eqn:Ht0;
      [by apply Qeq_bool_iff in Ht0|].
    simpl. repeat split.
    + unfold save. simpl. apply lookup_insert_eq.
    + intros k Hk. unfold save. simpl. by apply lookup_insert_ne.
Qed.

(** A buy executed at 100 with target 110 scores (110 - 100) / 100. *)
Lemma calculate_performance_spec_witness :
  let self := mkTradingSignal 1 (mkMarketTicker "AAPL" "SMART" "STK" "USD")
                "buy" (8 # 10) "executed" None (Some 110%Q) (Some 100%Q) None in
  (calculate_performance self ∅).1.1 = Some ((110 - 100) / 100)%Q.
Proof.
  intros self.
  assert (He : ¬ (100 == 0)%Q) by (intros H; discriminate H).
  assert (Ht : ¬ (110 == 0)%Q) by (intros H; discriminate H).
  pose proof (proj2 (calculate_performance_spec self ∅) 100%Q 110%Q
                eq_refl eq_refl He Ht) as [Hr _].
  by rewrite Hr.
Defined.

(** ** News scoring weights *)

Lemma num_or_default_missing (c : option Q) :
  num_or (default_missing c) (1 # 2) = num_or c (1 # 2).
Proof.
  destruct c as [x|]; simpl; [|done].
  destruct (Qeq_bool x 0) eqn:Hx; simpl; [done|]. by rewrite Hx.
Qed.

Lemma gpt_accumulate_half_confident (articles : list NewsArticle)
    (total_sentiment total_impact : Q) (analyzed_count : nat) :
  gpt_accumulate (as_half_confident <$> articles) total_sentiment total_impact
    analyzed_count
  = gpt_accumulate articles total_sentiment total_impact analyzed_count.
Proof.
  revert total_sentiment total_impact analyzed_count.
  induction articles as [|a rest IH]; intros ts ti n; simpl; [done|].
  rewrite !num_or_default_missing.
  destruct (opt_str_truthy (gpt_sentiment a)); simpl; [|done].
  destruct (gpt_sentiment a) as [s|], (gpt_impact a) as [i|]; try apply IH.
  destruct (str_truthy s && str_truthy i); apply IH.
Qed.

Lemma news_impact_accumulate_half_confident (articles : list NewsArticle)
    (total_impact : Q) (count : nat) :
  news_impact_accumulate (as_half_confident <$> articles) total_impact count
  = news_impact_accumulate articles total_impact count.
Proof.
  revert total_impact count.
  induction articles as [|a rest IH]; intros ti n; simpl; [done|].
  rewrite !num_or_default_missing.
  destruct (gpt_impact a) as [i|]; try apply IH.
  destruct (str_truthy i); apply IH.
Qed.

(** C10: a missing or zero confidence is weighted as one half. In the GPT
    accumulation loop a scored article adds its sentiment score and its
    impact score, each times the confidence with that default; the news
    impact aggregation does the same for the impact score; and both results
    are those of the same articles with every missing or zero confidence
    replaced by one half, so a zero-confidence classification of a high
    impact article contributes one half, not nothing. *)
Theorem zero_confidence_counts_as_half :
  (∀ c, c = None ∨ (∃ x, c = Some x ∧ (x == 0)%Q) →
        num_or c (1 # 2) = (1 # 2)%Q)
  ∧ (∀ a rest ts ti n s i,
        gpt_sentiment a = Some s → gpt_impact a = Some i →
        str_truthy s = true → str_truthy i = true →
        gpt_accumulate (a :: rest) ts ti n
        = gpt_accumulate rest
            (ts + _sentiment_to_score s
                  * num_or (gpt_sentiment_confidence a) (1 # 2))%Q
            (ti + _impact_to_score i
                  * num_or (gpt_impact_confidence a) (1 # 2))%Q
            (S n))
  ∧ (∀ a rest ti n i,
        gpt_impact a = Some i → str_truthy i = true →
        news_impact_accumulate (a :: rest) ti n
        = news_impact_accumulate rest
            (ti + _impact_to_score i
                  * num_or (gpt_impact_confidence a) (1 # 2))%Q
            (S n))
  ∧ (∀ articles,
        _generate_gpt_signal articles
        = _generate_gpt_signal (as_half_confident <$> articles))
  ∧ (∀ articles,
        _calculate_news_impact articles
        = _calculate_news_impact (as_half_confident <$> articles))
  ∧ (∀ c, c = None ∨ c = Some 0%Q →
        let a := mkNewsArticle 1 "AAPL" "" None (Some "positive") c
                   (Some "high") c 0 in
        (_calculate_news_impact [a] == 1 # 2)%Q
        ∧ ∃ g, _generate_gpt_signal [a] = Some g
               ∧ (gpt_sentiment_score g == 35 # 100)%Q
               ∧ (gpt_avg_impact g == 1 # 2)%Q).
Proof.
  split; [|split; [|split; [|split; [|split]]]].
  - intros c [->|(x & -> & Hx)]; simpl; [done|].
    apply Qeq_bool_iff in Hx. by rewrite Hx.
  - intros a rest ts ti n s i Hs Hi Hts Hti. simpl.
    rewrite Hs, Hi. simpl. by rewrite Hts, Hti.
  - intros a rest ti n i Hi Hti. simpl. by rewrite Hi, Hti.
  - intros articles. unfold _generate_gpt_signal.
    rewrite gpt_accumulate_half_confident. by destruct articles.
  - intros articles. unfold _calculate_news_impact.
    rewrite news_impact_accumulate_half_confident. by destruct articles.
  - intros c [->| ->]; (split; [done|]); eexists; (split; [reflexivity|]);
      by split.
Qed.

(** ** Webhook delivery *)

Section WebhookProperties.

Context (json_dumps : Payload → string)
        (generate_webhook_signature : string → string → string)
        (endpoint : nat → Request → HttpOutcome).

Lemma wait_before_retry_keeps (attempt : nat) (d : SignalDelivery) (w : World) :
  let r := wait_before_retry attempt d w in
  delivery_attempts r.1 = delivery_attempts d
  ∧ delivery_status r.1 = delivery_status d
  ∧ posted r.2 = posted w.
Proof.
  unfold wait_before_retry.
  by destruct (attempt <? max_retry_attempts - 1).
Qed.

(** What the attempt loop leaves behind: either it returned [True] from
    inside, with the record delivered, or it ran through every attempt,
    counting and posting once per attempt. *)
Lemma attempt_loop_outcome (attempts : list nat) (url payload_json : string)
    (headers : list (string * string)) (d : SignalDelivery) (w : World) :
  let r := attempt_loop endpoint attempts url payload_json headers d w in
  match r.1.1 with
  | Some result => result = true ∧ delivery_status r.1.2 = "delivered"
  | None =>
      delivery_attempts r.1.2 = delivery_attempts d + length attempts
      ∧ posted r.2
        = posted w
          ++ replicate (length attempts) (mkRequest url payload_json headers 30)
  end.
Proof.
  revert d w. induction attempts as [|attempt rest IH]; intros d w; simpl.
  { split; [lia|by rewrite app_nil_r]. }
  set (d1 := begin_attempt attempt d (clock w)).
  set (request := mkRequest url payload_json headers 30).
  set (w1 := record_post request (save_delivery d1 w)).
  set (fail_with := λ msg,
         wait_before_retry attempt (set_error_message msg d1)
           (save_delivery (set_error_message msg d1) w1)).
  assert (Hfail : ∀ msg,
    let r := attempt_loop endpoint rest url payload_json headers
               (fail_with msg).1 (fail_with msg).2 in
    match r.1.1 with
    | Some result => result = true ∧ delivery_status r.1.2 = "delivered"
    | None =>
        delivery_attempts r.1.2 = delivery_attempts d + S (length rest)
        ∧ posted r.2 = posted w ++ request :: replicate (length rest) request
    end).
  { intros msg. specialize (IH (fail_with msg).1 (fail_with msg).2).
    simpl in *.
    destruct (wait_before_retry_keeps attempt (set_error_message msg d1)
                (save_delivery (set_error_message msg d1) w1))
      as (Ha & _ & Hp).
    fold (fail_with msg) in Ha, Hp.
    destruct (attempt_loop endpoint rest url payload_json headers
                (fail_with msg).1 (fail_with msg).2) as [[[b|] d'] w']; simpl in *;
      [done|].
    destruct IH as [IHa IHp]. rewrite IHa, IHp, Ha, Hp. simpl.
    split; [lia|]. by rewrite <- app_assoc. }
  destruct (endpoint _ request) as [status_code text|e].
  - destruct (status_code =? 200)%Z; [done|].
    specialize (Hfail ("HTTP " ++ pretty status_code ++ ": " ++ text)%string).
    unfold fail_with in Hfail. simpl in Hfail.
    by destruct (wait_before_retry _ _ _).
  - specialize (Hfail ("Request error: " ++ e)%string).
    unfold fail_with in Hfail. simpl in Hfail.
    by destruct (wait_before_retry _ _ _).
Qed.

(** When no POST succeeds the loop runs through every attempt. *)
Lemma attempt_loop_never_succeeds (attempts : list nat)
    (url payload_json : string) (headers : list (string * string))
    (d : SignalDelivery) (w : World) :
  (∀ n r, is_success (endpoint n r) = false) →
  (attempt_loop endpoint attempts url payload_json headers d w).1.1 = None.
Proof.
  intros Hnever. revert d w.
  induction attempts as [|attempt rest IH]; intros d w; simpl; [done|].
  match goal with |- context [endpoint ?n ?r] =>
    specialize (Hnever n r) as Hn; destruct (endpoint n r) as [c t|e]
  end; simpl in Hn.
  - rewrite Hn. destruct (wait_before_retry _ _ _). apply IH.
  - destruct (wait_before_retry _ _ _). apply IH.
Qed.

(** The record keeps its (signal, subscriber) key through the loop. *)
Lemma attempt_loop_key (attempts : list nat) (url payload_json : string)
    (headers : list (string * string)) (d : SignalDelivery) (w : World) :
  delivery_key (attempt_loop endpoint attempts url payload_json headers d w).1.2
  = delivery_key d.
Proof.
  revert d w. induction attempts as [|attempt rest IH]; intros d w; simpl;
    [done|].
  destruct (endpoint _ _) as [status_code text|e].
  - destruct (status_code =? 200)%Z; [done|].
    unfold wait_before_retry.
    destruct (attempt <? max_retry_attempts - 1); by rewrite IH.
  - unfold wait_before_retry.
    destruct (attempt <? max_retry_attempts - 1); by rewrite IH.
Qed.

(** When the loop returns from inside, its last act was to save the record. *)
Lemma attempt_loop_saved (attempts : list nat) (url payload_json : string)
    (headers : list (string * string)) (d : SignalDelivery) (w : World) :
  let r := attempt_loop endpoint attempts url payload_json headers d w in
  is_Some r.1.1 → deliveries r.2 !! delivery_key r.1.2 = Some r.1.2.
Proof.
  revert d w. induction attempts as [|attempt rest IH]; intros d w; simpl.
  { by intros [? ?]. }
  destruct (endpoint _ _) as [status_code text|e].
  - destruct (status_code =? 200)%Z.
    + intros _. simpl. apply lookup_insert_eq.
    + destruct (wait_before_retry _ _ _). apply IH.
  - destruct (wait_before_retry _ _ _). apply IH.
Qed.

(** The result of [_deliver_webhook] in terms of its loop. *)
Lemma deliver_webhook_outcome (subscriber : APISubscriber) (payload : Payload)
    (delivery : SignalDelivery) (w : World) :
  let r := _deliver_webhook json_dumps generate_webhook_signature endpoint
             subscriber payload delivery w in
  deliveries r.2 !! delivery_key delivery = Some r.1.2
  ∧ (if r.1.1
     then delivery_status r.1.2 = "delivered"
     else delivery_status r.1.2 = "failed"
          ∧ delivery_attempts r.1.2
            = delivery_attempts delivery + max_retry_attempts
          ∧ ∃ request,
              request_url request = webhook_url subscriber
              ∧ request_data request = json_dumps payload
              ∧ posted r.2
                = posted w ++ replicate max_retry_attempts request).
Proof.
  unfold _deliver_webhook.
  set (attempts := seq 0 max_retry_attempts).
  assert (Hlen : length attempts = max_retry_attempts) by done.
  clearbody attempts.
  match goal with |- context [attempt_loop endpoint ?a ?u ?p ?h ?d ?w] =>
    pose proof (attempt_loop_outcome a u p h d w) as Hout;
    pose proof (attempt_loop_key a u p h d w) as Hkey;
    pose proof (attempt_loop_saved a u p h d w) as Hsaved;
    destruct (attempt_loop endpoint a u p h d w) as [[[result|] d'] w']
  end; cbn [fst snd] in *.
  - destruct Hout as [-> Hst]. split; [|done].
    rewrite <- Hkey. by apply Hsaved.
  - destruct Hout as [Ha Hp]. rewrite Hlen in Ha, Hp. split.
    + rewrite <- Hkey. apply lookup_insert_eq.
    + split; [done|]. split; [done|].
      eexists. split; [|split; [|exact Hp]]; done.
Qed.

(** C4: starting from a record with no attempts, when every POST returns a
    response whose status is not 200 the service posts exactly 5 requests,
    leaves the record [failed] with 5 attempts, saved under its key, and
    returns [False]. *)
Theorem always_failing_endpoint_exhausts_retries (subscriber : APISubscriber)
    (payload : Payload) (delivery : SignalDelivery) (w : World) :
  delivery_attempts delivery = 0 →
  (∀ n r, ∃ status_code text,
      endpoint n r = Response status_code text ∧ status_code ≠ 200%Z) →
  let r := _deliver_webhook json_dumps generate_webhook_signature endpoint
             subscriber payload delivery w in
  r.1.1 = false
  ∧ delivery_status r.1.2 = "failed"
  ∧ delivery_attempts r.1.2 = 5
  ∧ length (posted r.2) = length (posted w) + 5
  ∧ (∃ request, request_url request = webhook_url subscriber
                ∧ posted r.2 = posted w ++ replicate 5 request)
  ∧ deliveries r.2 !! delivery_key delivery = Some r.1.2.
Proof.
  intros Hzero Hnon200 r.
  assert (Hnever : ∀ n q, is_success (endpoint n q) = false).
  { intros n q. destruct (Hnon200 n q) as (c & t & -> & Hc). simpl.
    by apply Z.eqb_neq. }
  assert (Hr : r.1.1 = false).
  { unfold r, _deliver_webhook.
    match goal with |- context [attempt_loop endpoint ?a ?u ?p ?h ?d ?w] =>
      pose proof (attempt_loop_never_succeeds a u p h d w Hnever) as Hnone;
      destruct (attempt_loop endpoint a u p h d w) as [[o d'] w']
    end. simpl in Hnone. by rewrite Hnone. }
  destruct (deliver_webhook_outcome subscriber payload delivery w)
    as [Hsaved Hres].
  fold r in Hsaved, Hres. rewrite Hr in Hres.
  destruct Hres as (Hst & Ha & request & Hurl & _ & Hp).
  repeat split; try done.
  - rewrite Ha, Hzero. done.
  - rewrite Hp, length_app, length_replicate. done.
  - by exists request.
Qed.

(** C9: a record left [failed] by a completed attempt loop has at least 5
    attempts, so the retry sweep's filter, which asks for fewer than 5,
    rejects it at every later time: it is not among the deliveries the sweep
    selects. *)
Theorem failed_by_attempt_loop_is_never_retried (subscriber : APISubscriber)
    (payload : Payload) (delivery : SignalDelivery) (w : World) :
  let r := _deliver_webhook json_dumps generate_webhook_signature endpoint
             subscriber payload delivery w in
  r.1.1 = false →
  delivery_status r.1.2 = "failed"
  ∧ max_retry_attempts ≤ delivery_attempts r.1.2
  ∧ deliveries r.2 !! delivery_key delivery = Some r.1.2
  ∧ ∀ now, retry_due now r.1.2 = false
           ∧ r.1.2 ∉ failed_deliveries now r.2.
Proof.
  intros r Hr.
  destruct (deliver_webhook_outcome subscriber payload delivery w)
    as [Hsaved Hres].
  fold r in Hsaved, Hres. rewrite Hr in Hres.
  destruct Hres as (Hst & Ha & _).
  assert (Hdue : ∀ now, retry_due now r.1.2 = false).
  { intros now. unfold retry_due.
    replace (delivery_attempts r.1.2 <? max_retry_attempts) with false.
    - apply andb_false_r.
    - symmetry. apply Nat.ltb_ge. lia. }
  repeat split; try done; [lia|].
  unfold failed_deliveries. rewrite list_elem_of_filter, Hdue.
  by intros [? _].
Qed.

(** C5 (amended): when the pair's delivery record is already [delivered] and
    the subscriber has a webhook URL, the call returns [True] and leaves the
    whole state as it was: no request is posted and the record is unchanged;
    calling once more does the same. *)
Theorem already_delivered_is_noop (signal : TradingSignal)
    (subscriber : APISubscriber) (w : World) (d : SignalDelivery) :
  deliveries w !! (id signal, subscriber_id subscriber) = Some d →
  delivery_status d = "delivered" →
  webhook_url subscriber ≠ "" →
  let deliver :=
    deliver_signal_to_subscriber json_dumps generate_webhook_signature
      endpoint signal subscriber in
  deliver w = (true, w)
  ∧ posted (deliver w).2 = posted w
  ∧ deliveries (deliver w).2 !! (id signal, subscriber_id subscriber) = Some d
  ∧ deliver (deliver w).2 = (true, w).
Proof.
  intros Hd Hst Hurl deliver.
  assert (Hcall : deliver w = (true, w)).
  { unfold deliver, deliver_signal_to_subscriber, get_or_create_delivery,
      str_truthy.
    apply String.eqb_neq in Hurl. rewrite Hurl, Hd, Hst. done. }
  rewrite !Hcall. simpl. by rewrite Hcall.
Qed.

(** Without a webhook URL the call returns [False] whatever the record
    says, and changes nothing. *)
Lemma no_webhook_url_returns_false (signal : TradingSignal)
    (subscriber : APISubscriber) (w : World) :
  webhook_url subscriber = "" →
  deliver_signal_to_subscriber json_dumps generate_webhook_signature endpoint
    signal subscriber w = (false, w).
Proof.
  intros Hurl. unfold deliver_signal_to_subscriber. by rewrite Hurl.
Qed.

(** The filters the fan-out writes down, taken together, are the condition
    under which a subscriber is to receive the signal. *)
Lemma written_filters_are_should_receive (signal : TradingSignal)
    (s : APISubscriber) :
  active_with_webhook s
  && allowlist_admits (subscribed_tickers s) (symbol (ticker signal))
  && Qle_bool (min_confidence_threshold s) (confidence signal)
  && allowlist_admits (signal_types s) (signal_type signal)
  = should_receive signal s.
Proof.
  unfold should_receive, active_with_webhook, allowlist_admits.
  by rewrite (orb_comm (bool_decide (symbol (ticker signal) ∈ _))),
       (orb_comm (bool_decide (signal_type signal ∈ _))).
Qed.

(** The fan-out stops at its first use of the name [Q], which the module
    never binds: no subscriber is reached and nothing changes. *)
Lemma deliver_to_all_raises_name_error (signal : TradingSignal) (w : World) :
  deliver_signal_to_all_subscribers json_dumps generate_webhook_signature
    endpoint signal w
  = (Raise (NameError "Q"), w).
Proof. reflexivity. Qed.

End WebhookProperties.

(** The sample delivery against an endpoint that always answers 500. *)
Lemma always_failing_endpoint_exhausts_retries_witness :
  delivery_attempts sample_pending_delivery = 0
  ∧ (∀ n r, ∃ status_code text,
        always_500 n r = Response status_code text ∧ status_code ≠ 200%Z)
  ∧ let r := _deliver_webhook sample_json_dumps sample_signature always_500
               sample_subscriber (_prepare_signal_payload sample_signal)
               sample_pending_delivery (sample_world ∅) in
    r.1.1 = false
    ∧ delivery_status r.1.2 = "failed"
    ∧ delivery_attempts r.1.2 = 5
    ∧ length (posted r.2) = 5.
Proof.
  assert (H0 : delivery_attempts sample_pending_delivery = 0) by reflexivity.
  assert (H500 : ∀ n r, ∃ status_code text,
            always_500 n r = Response status_code text ∧ status_code ≠ 200%Z).
  { intros n r. exists 500%Z, "Internal Server Error". split; [reflexivity|].
    discriminate. }
  split; [exact H0|]. split; [exact H500|].
  destruct (always_failing_endpoint_exhausts_retries sample_json_dumps
              sample_signature always_500 sample_subscriber
              (_prepare_signal_payload sample_signal) sample_pending_delivery
              (sample_world ∅) H0 H500) as (Hr & Hst & Ha & Hp & _).
  split; [exact Hr|]. split; [exact Hst|]. split; [exact Ha|]. exact Hp.
Defined.

(** The record the always-500 endpoint leaves behind is rejected by the
    sweep's filter. *)
Lemma failed_by_attempt_loop_is_never_retried_witness :
  let r := _deliver_webhook sample_json_dumps sample_signature always_500
             sample_subscriber (_prepare_signal_payload sample_signal)
             sample_pending_delivery (sample_world ∅) in
  r.1.1 = false
  ∧ max_retry_attempts ≤ delivery_attempts r.1.2
  ∧ retry_due 999999999999 r.1.2 = false.
Proof.
  intros r.
  assert (Hr : r.1.1 = false) by (vm_compute; reflexivity).
  destruct (failed_by_attempt_loop_is_never_retried sample_json_dumps
              sample_signature always_500 sample_subscriber
              (_prepare_signal_payload sample_signal) sample_pending_delivery
              (sample_world ∅) Hr) as (_ & Ha & _ & Hnow).
  split; [exact Hr|]. split; [exact Ha|].
  exact (proj1 (Hnow 999999999999%Z)).
Defined.

(** C5 (as stated) fails: the check for a webhook URL comes first. For a
    pair whose record is already [delivered] but whose subscriber has no
    webhook URL any more, the call returns [False], not success. *)
Lemma already_delivered_without_url_returns_false :
  let w := sample_world {[ (7%Z, 3%Z) := sample_delivered_delivery ]} in
  deliveries w !! (id sample_signal, subscriber_id sample_subscriber_without_url)
    = Some sample_delivered_delivery
  ∧ delivery_status sample_delivered_delivery = "delivered"
  ∧ (deliver_signal_to_subscriber sample_json_dumps sample_signature
       always_200 sample_signal sample_subscriber_without_url w).1 = false.
Proof. repeat split. Qed.

(** The sample pair, already delivered, with the webhook URL in place. *)
Lemma already_delivered_is_noop_witness :
  let w := sample_world {[ (7%Z, 3%Z) := sample_delivered_delivery ]} in
  deliveries w !! (id sample_signal, subscriber_id sample_subscriber)
    = Some sample_delivered_delivery
  ∧ delivery_status sample_delivered_delivery = "delivered"
  ∧ webhook_url sample_subscriber ≠ ""
  ∧ deliver_signal_to_subscriber sample_json_dumps sample_signature always_200
      sample_signal sample_subscriber w = (true, w).
Proof.
  intros w.
  assert (Hd : deliveries w
               !! (id sample_signal, subscriber_id sample_subscriber)
               = Some sample_delivered_delivery) by reflexivity.
  assert (Hst : delivery_status sample_delivered_delivery = "delivered")
    by reflexivity.
  assert (Hurl : webhook_url sample_subscriber ≠ "") by discriminate.
  split; [exact Hd|]. split; [exact Hst|]. split; [exact Hurl|].
  exact (proj1 (already_delivered_is_noop sample_json_dumps sample_signature
                  always_200 sample_signal sample_subscriber w
                  sample_delivered_delivery Hd Hst Hurl)).
Defined.

(** C2 (the code at a failing input): the sample subscriber is active, has a
    webhook URL, empty ticker and type allowlists and threshold 0.5, and the
    sample signal has confidence 0.8, so the subscriber is to receive it; the
    endpoint would answer 200. The fan-out raises [NameError] for [Q] before
    it reaches any subscriber: no request is posted and no delivery record
    is created. *)
Theorem deliver_to_all_reaches_no_subscriber :
  should_receive sample_signal sample_subscriber = true
  ∧ sample_subscriber ∈ subscribers (sample_world ∅)
  ∧ let r := deliver_signal_to_all_subscribers sample_json_dumps
               sample_signature always_200 sample_signal (sample_world ∅) in
    r.1 = Raise (NameError "Q")
    ∧ posted r.2 = []
    ∧ deliveries r.2 = ∅.
Proof.
  split; [reflexivity|]. split; [constructor|]. repeat split.
Qed.

(** * Further properties *)

Import api_auth api_views.

(** ** Signal-type fusion, all cases *)

(** X1: swapping the GPT side and the technical side never changes the fused
    type, whatever the two strings are. *)
Theorem combine_signal_types_symmetric (gpt_type technical_type : string) :
  _combine_signal_types gpt_type technical_type
  = _combine_signal_types technical_type gpt_type.
Proof.
  unfold _combine_signal_types.
  destruct (String.eqb_spec gpt_type technical_type) as [->|Hne].
  { by rewrite String.eqb_refl. }
  assert (Hsym : String.eqb technical_type gpt_type = false).
  { apply String.eqb_neq. congruence. }
  rewrite Hsym.
  destruct (str_in "strong" gpt_type), (str_in "strong" technical_type),
    (bool_decide (gpt_type ∈ ["buy"; "strong_buy"])),
    (bool_decide (technical_type ∈ ["buy"; "strong_buy"])),
    (bool_decide (gpt_type ∈ ["sell"; "strong_sell"])),
    (bool_decide (technical_type ∈ ["sell"; "strong_sell"]));
    reflexivity.
Qed.

(** X2: on the five signal types the fusion stays within the five types, and it
    never invents a direction: a fused buy or strong buy needs a side in the
    buy family, a fused sell or strong sell a side in the sell family. *)
Theorem combine_signal_types_closed (gpt_type technical_type : string) :
  gpt_type ∈ ["strong_sell"; "sell"; "hold"; "buy"; "strong_buy"] →
  technical_type ∈ ["strong_sell"; "sell"; "hold"; "buy"; "strong_buy"] →
  let fused := _combine_signal_types gpt_type technical_type in
  fused ∈ ["strong_sell"; "sell"; "hold"; "buy"; "strong_buy"]
  ∧ (fused ∈ ["buy"; "strong_buy"] →
     gpt_type ∈ ["buy"; "strong_buy"] ∨ technical_type ∈ ["buy"; "strong_buy"])
  ∧ (fused ∈ ["sell"; "strong_sell"] →
     gpt_type ∈ ["sell"; "strong_sell"]
     ∨ technical_type ∈ ["sell"; "strong_sell"]).
Proof.
  intros Hg Ht.
  repeat (apply elem_of_cons in Hg as [->|Hg]);
    try (by apply elem_of_nil in Hg);
    (repeat (apply elem_of_cons in Ht as [->|Ht]);
      try (by apply elem_of_nil in Ht));
    vm_compute _combine_signal_types; cbv zeta;
    (split; [set_solver|split; set_solver]).
Qed.

(** A hold against a strong buy fuses to the strong buy. *)
Lemma combine_signal_types_closed_witness :
  "hold" ∈ ["strong_sell"; "sell"; "hold"; "buy"; "strong_buy"]
  ∧ "strong_buy" ∈ ["strong_sell"; "sell"; "hold"; "buy"; "strong_buy"]
  ∧ _combine_signal_types "hold" "strong_buy"
    ∈ ["strong_sell"; "sell"; "hold"; "buy"; "strong_buy"].
Proof.
  assert (Hg : "hold" ∈ ["strong_sell"; "sell"; "hold"; "buy"; "strong_buy"])
    by repeat constructor.
  assert (Ht : "strong_buy"
               ∈ ["strong_sell"; "sell"; "hold"; "buy"; "strong_buy"])
    by repeat constructor.
  split; [exact Hg|]. split; [exact Ht|].
  exact (proj1 (combine_signal_types_closed "hold" "strong_buy" Hg Ht)).
Defined.

(** ** Sentiment labels and scores *)

(** X3: turning a label into its score and the score back into a label returns
    the label for [positive] and [negative]; every other label, known or
    not, scores 0 and comes back as [neutral]. *)
Theorem sentiment_label_round_trip (sentiment : string) :
  _score_to_sentiment (_sentiment_to_score sentiment)
  = if bool_decide (sentiment ∈ ["positive"; "negative"])
    then sentiment else "neutral".
Proof.
  unfold _sentiment_to_score.
  destruct (String.eqb_spec sentiment "positive") as [->|Hp]; [done|].
  destruct (String.eqb_spec sentiment "negative") as [->|Hn]; [done|].
  rewrite bool_decide_eq_false_2; [done|].
  set_solver.
Qed.

(** ** Signals from scores *)

Lemma Qle_bool_false (x y : Q) : Qle_bool x y = false ↔ (y < x)%Q.
Proof.
  split.
  - intros H. apply Qnot_le_lt. intros Hle.
    apply Qle_bool_iff in Hle. congruence.
  - intros H. destruct (Qle_bool x y) eqn:Hb; [|done].
    apply Qle_bool_iff in Hb. lra.
Qed.

Lemma Qmax_Qmin_range (x lo hi : Q) :
  (lo <= hi)%Q → (lo <= Qmax (Qmin x hi) lo <= hi)%Q.
Proof.
  intros Hlh. split.
  - apply Q.le_max_r.
  - apply Q.max_lub; [apply Q.le_min_r | done].
Qed.

(** X4: whatever the two scores, the confidence lies in [0.1, 1]; the type is a
    buy or strong buy exactly when the combined score 0.7 * sentiment +
    0.3 * impact exceeds 0.5, a sell or strong sell exactly when it is below
    -0.5, and the strong forms need it beyond 0.8 in absolute value. *)
Theorem signal_from_scores_bounds (sentiment_score impact_score : Q) :
  let combined := (sentiment_score * (7 # 10) + impact_score * (3 # 10))%Q in
  let r := _calculate_signal_from_scores sentiment_score impact_score in
  (1 # 10 <= r.2 <= 1)%Q
  ∧ r.1 ∈ ["strong_sell"; "sell"; "hold"; "buy"; "strong_buy"]
  ∧ (r.1 ∈ ["buy"; "strong_buy"] ↔ (1 # 2 < combined)%Q)
  ∧ (r.1 ∈ ["sell"; "strong_sell"] ↔ (combined < - (1 # 2))%Q)
  ∧ (r.1 = "strong_buy" ↔ (8 # 10 < combined)%Q)
  ∧ (r.1 = "strong_sell" ↔ (combined < - (8 # 10))%Q).
Proof.
  intros combined r. unfold r, _calculate_signal_from_scores. fold combined.
  cbn [fst snd].
  split.
  { pose proof (Qmax_Qmin_range (Qabs combined * impact_score) (1 # 10) 1)
      as H.
    apply H. lra. }
  destruct (Qle_bool combined (1 # 2)) eqn:H1;
    destruct (Qle_bool combined (8 # 10)) eqn:H2;
    destruct (Qle_bool (- (1 # 2)) combined) eqn:H3;
    destruct (Qle_bool (- (8 # 10)) combined) eqn:H4;
    cbn [negb];
    try apply Qle_bool_iff in H1; try apply Qle_bool_false in H1;
    try apply Qle_bool_iff in H2; try apply Qle_bool_false in H2;
    try apply Qle_bool_iff in H3; try apply Qle_bool_false in H3;
    try apply Qle_bool_iff in H4; try apply Qle_bool_false in H4;
    try (exfalso; lra);
    (split; [set_solver|]);
    repeat split; intros; try set_solver; try lra; try done.
Qed.

Ltac in_list := apply list_elem_of_In; simpl; tauto.
Ltac not_in_list H :=
  apply list_elem_of_In in H; simpl in H; intuition discriminate.

(** The type the technical mapping gives, by the range of the score. *)
Lemma technical_type_cases (technical_scores : TechnicalScores) :
  let score := default (1 # 2)%Q (overall_score technical_scores) in
  let t := (_calculate_technical_signal technical_scores).1 in
  ((7 # 10 < score)%Q ∧ t = "strong_buy")
  ∨ ((6 # 10 < score <= 7 # 10)%Q ∧ t = "buy")
  ∨ ((score < 3 # 10)%Q ∧ t = "strong_sell")
  ∨ ((3 # 10 <= score < 4 # 10)%Q ∧ t = "sell")
  ∨ ((4 # 10 <= score <= 6 # 10)%Q ∧ t = "hold").
Proof.
  intros score t. unfold t, _calculate_technical_signal. fold score.
  cbn [fst].
  destruct (Qle_bool score (7 # 10)) eqn:H1; cbn [negb];
    [apply Qle_bool_iff in H1 | apply Qle_bool_false in H1; by left].
  destruct (Qle_bool score (6 # 10)) eqn:H2; cbn [negb];
    [apply Qle_bool_iff in H2 | apply Qle_bool_false in H2; right; by left].
  destruct (Qle_bool (3 # 10) score) eqn:H3; cbn [negb];
    [apply Qle_bool_iff in H3
    | apply Qle_bool_false in H3; right; right; by left].
  destruct (Qle_bool (4 # 10) score) eqn:H4; cbn [negb];
    [apply Qle_bool_iff in H4
    | apply Qle_bool_false in H4; right; right; right; by left].
  by repeat right.
Qed.

(** The confidence of the technical mapping is the larger of 2 |score - 0.5|
    and 0.1. *)
Lemma technical_confidence_cases (technical_scores : TechnicalScores) :
  let score := default (1 # 2)%Q (overall_score technical_scores) in
  let c := (_calculate_technical_signal technical_scores).2 in
  (1 # 10 <= c)%Q
  ∧ ((c == 1 # 10)%Q
     ∨ (c == 2 * (score - (1 # 2)))%Q
     ∨ (c == 2 * ((1 # 2) - score))%Q)
  ∧ (2 * (score - (1 # 2)) <= c)%Q
  ∧ (2 * ((1 # 2) - score) <= c)%Q.
Proof.
  intros score c. unfold c, _calculate_technical_signal. fold score.
  cbn [snd].
  set (a := Qabs (score - (1 # 2))).
  assert (Ha : (a == score - (1 # 2) ∧ 0 <= score - (1 # 2)
                ∨ a == - (score - (1 # 2)) ∧ score - (1 # 2) <= 0)%Q).
  { unfold a. apply Qabs_case; intros H; [left|right]; by split. }
  assert (Hge : (score - (1 # 2) <= a ∧ - (score - (1 # 2)) <= a)%Q).
  { destruct Ha as [[-> ?]|[-> ?]]; split; lra. }
  destruct (Q.max_spec (a * 2) (1 # 10)) as [[Hlt Hm]|[Hle Hm]];
    rewrite Hm.
  - repeat split; try lra; by left.
  - repeat split; lra.
Qed.

(** X5: the technical mapping: the confidence is never below 0.1; for a score in
    [0, 1] it is at most 1; a strong type carries a confidence above 0.4 and
    a hold one of at most 0.2; a score read from a dict without the key
    counts as 0.5 and gives a hold with confidence 0.1. *)
Theorem technical_signal_bounds (technical_scores : TechnicalScores) :
  let score := default (1 # 2)%Q (overall_score technical_scores) in
  let r := _calculate_technical_signal technical_scores in
  (1 # 10 <= r.2)%Q
  ∧ ((0 <= score <= 1)%Q → (r.2 <= 1)%Q)
  ∧ r.1 ∈ ["strong_sell"; "sell"; "hold"; "buy"; "strong_buy"]
  ∧ (r.1 ∈ ["strong_sell"; "strong_buy"] → (4 # 10 < r.2)%Q)
  ∧ (r.1 = "hold" ↔ (4 # 10 <= score <= 6 # 10)%Q)
  ∧ (r.1 = "hold" → (r.2 <= 2 # 10)%Q)
  ∧ (overall_score technical_scores = None → r = ("hold", (1 # 10)%Q)).
Proof.
  intros score r.
  destruct (technical_confidence_cases technical_scores)
    as (Hlow & Hval & Hup & Hdown).
  fold score r in Hlow, Hval, Hup, Hdown.
  pose proof (technical_type_cases technical_scores) as Htype.
  fold score r in Htype. cbv zeta in Htype.
  split; [done|].
  split.
  { intros Hs. destruct Hval as [->|[->| ->]]; lra. }
  split.
  { destruct Htype as [[_ ->]|[[_ ->]|[[_ ->]|[[_ ->]|[_ ->]]]]]; in_list. }
  split.
  { intros Hstrong.
    destruct Htype as [[? Ht]|[[? Ht]|[[? Ht]|[[? Ht]|[? Ht]]]]];
      rewrite Ht in Hstrong; try not_in_list Hstrong; lra. }
  split.
  { destruct Htype as [[? Ht]|[[? Ht]|[[? Ht]|[[? Ht]|[? Ht]]]]];
      rewrite Ht; split; intros; try done; lra. }
  split.
  { intros Hhold.
    destruct Htype as [[? Ht]|[[? Ht]|[[? Ht]|[[? Ht]|[? Ht]]]]];
      rewrite Ht in Hhold; try discriminate.
    destruct Hval as [->|[->| ->]]; lra. }
  intros Hnone. unfold r, _calculate_technical_signal. by rewrite Hnone.
Qed.

(** ** The GPT path *)

Lemma inject_nat_S (n : nat) :
  (inject_Z (Z.of_nat (S n)) == inject_Z (Z.of_nat n) + 1)%Q.
Proof.
  rewrite Nat2Z.inj_succ, <- Z.add_1_r, inject_Z_plus. reflexivity.
Qed.

Lemma inject_nat_pos (n : nat) : n ≠ 0 → (0 < inject_Z (Z.of_nat n))%Q.
Proof. intros Hn. change 0%Q with (inject_Z 0). rewrite <- Zlt_Qlt. lia. Qed.

(** An article without a sentiment stops the accumulation loop. *)
Lemma gpt_accumulate_unscored (articles : list NewsArticle) (a : NewsArticle)
    (ts ti : Q) (n : nat) :
  a ∈ articles → opt_str_truthy (gpt_sentiment a) = false →
  gpt_accumulate articles ts ti n = None.
Proof.
  intros Hin Hfalsy. revert ts ti n.
  induction articles as [|b rest IH]; intros ts ti n.
  { by apply elem_of_nil in Hin. }
  simpl. destruct (opt_str_truthy (gpt_sentiment b)) eqn:Hb; simpl; [|done].
  apply elem_of_cons in Hin as [->|Hin]; [congruence|].
  destruct (gpt_sentiment b), (gpt_impact b); try by apply IH.
  destruct (_ && _); by apply IH.
Qed.

(** A label that is not a key of the dict stops the breakdown loop. *)
Lemma breakdown_loop_unknown_label (label : NewsArticle → option string)
    (articles : list NewsArticle) (a : NewsArticle) (l : string)
    (breakdown : gmap string nat) :
  a ∈ articles → label a = Some l → str_truthy l = true →
  breakdown !! l = None →
  breakdown_loop label articles breakdown = None.
Proof.
  intros Hin Hl Ht. revert breakdown.
  induction articles as [|b rest IH]; intros breakdown Hnone.
  { by apply elem_of_nil in Hin. }
  simpl. apply elem_of_cons in Hin as [->|Hin].
  { rewrite Hl, Ht. unfold dict_increment. by rewrite Hnone. }
  destruct (label b) as [l'|]; [|by apply IH].
  destruct (str_truthy l'); [|by apply IH].
  unfold dict_increment.
  destruct (breakdown !! l') as [k|] eqn:Hk; [|done].
  apply IH; [done|]. rewrite lookup_insert_ne; [done|]. congruence.
Qed.

(** X6: the GPT path gives up as soon as one of the selected articles has no
    sentiment yet: analysing it calls a method the analyzer does not have,
    and the error is swallowed. No signal is created, however well the other
    articles are scored. *)
Theorem gpt_signal_needs_every_article_scored (articles : list NewsArticle)
    (a : NewsArticle) :
  a ∈ articles →
  gpt_sentiment a = None ∨ gpt_sentiment a = Some "" →
  _generate_gpt_signal articles = None
  ∧ _generate_gpt_signal_created articles = None.
Proof.
  intros Hin Hs.
  assert (Hfalsy : opt_str_truthy (gpt_sentiment a) = false).
  { by destruct Hs as [-> | ->]. }
  assert (Hnone : _generate_gpt_signal articles = None).
  { unfold _generate_gpt_signal.
    rewrite (gpt_accumulate_unscored articles a 0 0 0 Hin Hfalsy).
    by destruct articles. }
  split; [done|]. unfold _generate_gpt_signal_created. by rewrite Hnone.
Qed.

(** One scored article followed by an unscored one: no signal. *)
Lemma gpt_signal_needs_every_article_scored_witness :
  let scored := mkNewsArticle 1 "AAPL beats" "" None (Some "positive")
                  (Some (8 # 10)%Q) (Some "high") (Some (9 # 10)%Q) 10 in
  let unscored := mkNewsArticle 2 "AAPL event" "" None None None None None 9 in
  unscored ∈ [scored; unscored]
  ∧ gpt_sentiment unscored = None
  ∧ _generate_gpt_signal_created [scored; unscored] = None.
Proof.
  intros scored unscored.
  assert (Hin : unscored ∈ [scored; unscored]) by repeat constructor.
  split; [exact Hin|]. split; [reflexivity|].
  exact (proj2 (gpt_signal_needs_every_article_scored [scored; unscored]
                  unscored Hin (or_introl eq_refl))).
Defined.

(** X7: a sentiment or impact label outside the ones the breakdowns count makes
    the GPT path return [None]: the breakdown raises [KeyError] while the
    signal's market context is built, and the error is swallowed. *)
Theorem gpt_signal_rejects_unknown_labels (articles : list NewsArticle)
    (a : NewsArticle) (l : string) :
  a ∈ articles →
  l ≠ "" →
  (gpt_sentiment a = Some l ∧ l ∉ ["positive"; "negative"; "neutral"])
  ∨ (gpt_impact a = Some l ∧ l ∉ ["high"; "medium"; "low"]) →
  _generate_gpt_signal_created articles = None.
Proof.
  intros Hin Hl Hcase. unfold _generate_gpt_signal_created.
  destruct (_generate_gpt_signal articles); [|done].
  assert (Ht : str_truthy l = true).
  { unfold str_truthy. apply String.eqb_neq in Hl. by rewrite Hl. }
  destruct Hcase as [[Hs Hout]|[Hi Hout]].
  - unfold _get_sentiment_breakdown.
    rewrite (breakdown_loop_unknown_label gpt_sentiment articles a l _ Hin Hs Ht);
      [done|].
    rewrite !lookup_insert_ne, lookup_empty; [done|..];
      intros <-; apply Hout; in_list.
  - unfold _get_impact_breakdown.
    rewrite (breakdown_loop_unknown_label gpt_impact articles a l _ Hin Hi Ht);
      [by repeat case_match|].
    rewrite !lookup_insert_ne, lookup_empty; [done|..];
      intros <-; apply Hout; in_list.
Qed.

(** A fully scored article whose sentiment reads "mixed": no signal. *)
Lemma gpt_signal_rejects_unknown_labels_witness :
  let odd := mkNewsArticle 1 "AAPL beats" "" None (Some "mixed")
               (Some (8 # 10)%Q) (Some "high") (Some (9 # 10)%Q) 10 in
  odd ∈ [odd]
  ∧ "mixed" ≠ ""
  ∧ _generate_gpt_signal_created [odd] = None.
Proof.
  intros odd.
  assert (Hin : odd ∈ [odd]) by repeat constructor.
  assert (Hne : "mixed" ≠ "") by discriminate.
  assert (Hout : "mixed" ∉ ["positive"; "negative"; "neutral"]).
  { intros H. apply list_elem_of_In in H. simpl in H.
    intuition discriminate. }
  split; [exact Hin|]. split; [exact Hne|].
  exact (gpt_signal_rejects_unknown_labels [odd] odd "mixed" Hin Hne
           (or_introl (conj eq_refl Hout))).
Defined.

Lemma num_or_in_unit (c : option Q) :
  in_unit c → (0 <= num_or c (1 # 2) <= 1)%Q.
Proof.
  intros Hc. destruct c as [x|]; simpl; [|lra].
  destruct (Qeq_bool x 0); [lra|]. by apply Hc.
Qed.

Lemma sentiment_contribution_bounds (s : string) (w : Q) :
  (0 <= w <= 1)%Q →
  (- (7 # 10) <= _sentiment_to_score s * w <= 7 # 10)%Q.
Proof.
  intros Hw. unfold _sentiment_to_score.
  destruct (String.eqb s "positive"); [lra|].
  destruct (String.eqb s "negative"); lra.
Qed.

Lemma impact_contribution_bounds (i : string) (w : Q) :
  (0 <= w <= 1)%Q → (0 <= _impact_to_score i * w <= 1)%Q.
Proof.
  intros Hw. unfold _impact_to_score.
  destruct (String.eqb i "high"); [lra|].
  destruct (String.eqb i "medium"); [lra|].
  destruct (String.eqb i "low"); lra.
Qed.

(** The running sums stay within what the number of scored articles
    allows. *)
Lemma gpt_accumulate_bounds (articles : list NewsArticle) (ts ti : Q) (n : nat)
    (ts' ti' : Q) (n' : nat) :
  Forall confidences_in_unit articles →
  gpt_accumulate articles ts ti n = Some (ts', ti', n') →
  (- (7 # 10) * inject_Z (Z.of_nat n) <= ts
   <= (7 # 10) * inject_Z (Z.of_nat n))%Q →
  (0 <= ti <= inject_Z (Z.of_nat n))%Q →
  (- (7 # 10) * inject_Z (Z.of_nat n') <= ts'
   <= (7 # 10) * inject_Z (Z.of_nat n'))%Q
  ∧ (0 <= ti' <= inject_Z (Z.of_nat n'))%Q
  ∧ n ≤ n' ≤ n + length articles.
Proof.
  intros Hall. revert ts ti n.
  induction Hall as [|a rest [Hsc Hic] _ IH]; intros ts ti n; simpl.
  { intros [= <- <- <-] Hts Hti. repeat split; try tauto; lia. }
  destruct (opt_str_truthy (gpt_sentiment a)); simpl; [|done].
  assert (Hskip : gpt_accumulate rest ts ti n = Some (ts', ti', n') →
    (- (7 # 10) * inject_Z (Z.of_nat n) <= ts
     <= (7 # 10) * inject_Z (Z.of_nat n))%Q →
    (0 <= ti <= inject_Z (Z.of_nat n))%Q →
    (- (7 # 10) * inject_Z (Z.of_nat n') <= ts'
     <= (7 # 10) * inject_Z (Z.of_nat n'))%Q
    ∧ (0 <= ti' <= inject_Z (Z.of_nat n'))%Q
    ∧ n ≤ n' ≤ n + S (length rest)).
  { intros Hacc Hts Hti. destruct (IH _ _ _ Hacc Hts Hti) as (? & ? & ?).
    repeat split; try tauto; lia. }
  destruct (gpt_sentiment a) as [s|], (gpt_impact a) as [i|]; try exact Hskip.
  destruct (str_truthy s && str_truthy i); [|exact Hskip].
  intros Hacc Hts Hti.
  pose proof (sentiment_contribution_bounds s _ (num_or_in_unit _ Hsc)) as Hs.
  pose proof (impact_contribution_bounds i _ (num_or_in_unit _ Hic)) as Hi.
  pose proof (inject_nat_S n) as HS.
  destruct (IH _ _ _ Hacc) as (? & ? & ?).
  - rewrite HS. lra.
  - rewrite HS. lra.
  - repeat split; try tauto; lia.
Qed.

Lemma Qdiv_bounds (x lo hi n : Q) :
  (0 < n)%Q → (lo * n <= x <= hi * n)%Q → (lo <= x / n <= hi)%Q.
Proof.
  intros Hn [Hlo Hhi]. split.
  - apply Qle_shift_div_l; [done|lra].
  - apply Qle_shift_div_r; [done|lra].
Qed.

(** The type [_calculate_signal_from_scores] gives, by the range of the
    combined score. *)
Lemma signal_type_cases (sentiment_score impact_score : Q) :
  let combined := (sentiment_score * (7 # 10) + impact_score * (3 # 10))%Q in
  let t := (_calculate_signal_from_scores sentiment_score impact_score).1 in
  ((8 # 10 < combined)%Q ∧ t = "strong_buy")
  ∨ ((1 # 2 < combined <= 8 # 10)%Q ∧ t = "buy")
  ∨ ((combined < - (8 # 10))%Q ∧ t = "strong_sell")
  ∨ ((- (8 # 10) <= combined < - (1 # 2))%Q ∧ t = "sell")
  ∨ ((- (1 # 2) <= combined <= 1 # 2)%Q ∧ t = "hold").
Proof.
  intros combined t. unfold t, _calculate_signal_from_scores. fold combined.
  cbn [fst].
  destruct (Qle_bool combined (1 # 2)) eqn:H1; cbn [negb].
  - apply Qle_bool_iff in H1.
    destruct (Qle_bool (- (1 # 2)) combined) eqn:H3; cbn [negb].
    + apply Qle_bool_iff in H3. by repeat right.
    + apply Qle_bool_false in H3.
      destruct (Qle_bool (- (8 # 10)) combined) eqn:H4; cbn [negb].
      * apply Qle_bool_iff in H4. right; right; right; by left.
      * apply Qle_bool_false in H4. right; right; by left.
  - apply Qle_bool_false in H1.
    destruct (Qle_bool combined (8 # 10)) eqn:H2; cbn [negb].
    + apply Qle_bool_iff in H2. right; by left.
    + apply Qle_bool_false in H2. by left.
Qed.

(** X8: with every confidence in [0, 1], a signal the GPT path creates is a
    hold or a buy, never a sell, strong sell or strong buy: the average
    sentiment lies in [-0.7, 0.7] and the average impact in [0, 1], so the
    combined score lies in [-0.49, 0.79]. Its confidence lies in [0.1, 1],
    and between 1 and all of the articles were scored. *)
Theorem gpt_signal_is_hold_or_buy (articles : list NewsArticle)
    (c : CreatedGptSignal) :
  Forall confidences_in_unit articles →
  _generate_gpt_signal_created articles = Some c →
  let g := created_scores c in
  gpt_signal_type g ∈ ["hold"; "buy"]
  ∧ (- (7 # 10) <= gpt_sentiment_score g <= 7 # 10)%Q
  ∧ (0 <= gpt_avg_impact g <= 1)%Q
  ∧ (1 # 10 <= gpt_confidence g <= 1)%Q
  ∧ 1 ≤ gpt_articles_analyzed g ≤ length articles.
Proof.
  intros Hall Hcreated g. unfold g. clear g.
  unfold _generate_gpt_signal_created in Hcreated.
  destruct (_generate_gpt_signal articles) as [g|] eqn:Hg; [|done].
  assert (Hc : created_scores c = g).
  { repeat case_match; try done. by injection Hcreated as <-. }
  rewrite Hc. clear Hcreated Hc c.
  unfold _generate_gpt_signal in Hg.
  destruct articles as [|a0 rest0] eqn:Harts; [done|]. rewrite <- Harts in *.
  destruct (gpt_accumulate articles 0 0 0) as [[[ts ti] n]|] eqn:Hacc; [|done].
  destruct (Nat.eqb_spec n 0) as [->|Hn]; [done|].
  destruct (gpt_accumulate_bounds articles 0 0 0 ts ti n Hall Hacc)
    as (Hts & Hti & Hcount).
  { change (inject_Z (Z.of_nat 0)) with 0%Q. lra. }
  { change (inject_Z (Z.of_nat 0)) with 0%Q. lra. }
  pose proof (inject_nat_pos n Hn) as Hpos.
  set (N := inject_Z (Z.of_nat n)) in *.
  assert (Hs : (- (7 # 10) <= ts / N <= 7 # 10)%Q)
    by (apply Qdiv_bounds; [done|lra]).
  assert (Hi : (0 <= ti / N <= 1)%Q)
    by (apply Qdiv_bounds; [done|lra]).
  pose proof (signal_type_cases (ts / N) (ti / N)) as Htype.
  cbv zeta in Htype.
  destruct (_calculate_signal_from_scores (ts / N) (ti / N)) as [t conf] eqn:Hsig.
  injection Hg as <-. cbn [gpt_signal_type gpt_sentiment_score gpt_avg_impact
                           gpt_confidence gpt_articles_analyzed].
  assert (Hconf : conf = (_calculate_signal_from_scores (ts / N) (ti / N)).2)
    by (by rewrite Hsig).
  cbn [fst] in Htype.
  split.
  { destruct Htype as [[? ->]|[[? ->]|[[? ->]|[[? ->]|[? ->]]]]];
      try in_list; exfalso; lra. }
  split; [done|]. split; [done|].
  split.
  { rewrite Hconf. unfold _calculate_signal_from_scores. cbn [snd].
    apply Qmax_Qmin_range. lra. }
  lia.
Qed.

(** The spec's single-article scenario: positive at 0.8, high at 0.9. *)
Lemma gpt_signal_is_hold_or_buy_witness :
  let a := mkNewsArticle 1 "AAPL beats" "" None (Some "positive")
             (Some (8 # 10)%Q) (Some "high") (Some (9 # 10)%Q) 10 in
  Forall confidences_in_unit [a]
  ∧ ∃ c, _generate_gpt_signal_created [a] = Some c
         ∧ gpt_signal_type (created_scores c) ∈ ["hold"; "buy"].
Proof.
  intros a.
  assert (Hall : Forall confidences_in_unit [a]).
  { constructor; [|constructor].
    split; intros x [= <-]; split; discriminate. }
  split; [exact Hall|].
  eexists. split; [reflexivity|].
  exact (proj1 (gpt_signal_is_hold_or_buy [a] _ Hall eq_refl)).
Defined.

(** ** News impact *)

Lemma news_impact_accumulate_bounds (articles : list NewsArticle) (ti : Q)
    (n : nat) :
  Forall (λ a, in_unit (gpt_impact_confidence a)) articles →
  (0 <= ti <= inject_Z (Z.of_nat n))%Q →
  let r := news_impact_accumulate articles ti n in
  (0 <= r.1 <= inject_Z (Z.of_nat r.2))%Q.
Proof.
  intros Hall. revert ti n.
  induction Hall as [|a rest Hic _ IH]; intros ti n Hti; simpl; [done|].
  destruct (gpt_impact a) as [i|]; [|by apply IH].
  destruct (str_truthy i); [|by apply IH].
  apply IH.
  pose proof (impact_contribution_bounds i _ (num_or_in_unit _ Hic)).
  rewrite inject_nat_S. lra.
Qed.

Lemma news_impact_accumulate_none (articles : list NewsArticle) (ti : Q)
    (n : nat) :
  Forall (λ a, opt_str_truthy (gpt_impact a) = false) articles →
  news_impact_accumulate articles ti n = (ti, n).
Proof.
  induction 1 as [|a rest Ha _ IH]; simpl; [done|].
  destruct (gpt_impact a) as [i|]; [|done].
  simpl in Ha. by rewrite Ha.
Qed.

(** X9: with every impact confidence in [0, 1] the news impact score lies in
    [0, 1]; it is exactly 0 when there is no article, or when no article
    carries an impact label. *)
Theorem news_impact_in_unit (articles : list NewsArticle) :
  Forall (λ a, in_unit (gpt_impact_confidence a)) articles →
  (0 <= _calculate_news_impact articles <= 1)%Q
  ∧ (Forall (λ a, opt_str_truthy (gpt_impact a) = false) articles →
     _calculate_news_impact articles = 0%Q).
Proof.
  intros Hall. unfold _calculate_news_impact. split.
  - destruct articles as [|a0 rest0] eqn:Harts; [lra|]. rewrite <- Harts in *.
    pose proof (news_impact_accumulate_bounds articles 0 0 Hall) as Hb.
    cbv zeta in Hb.
    destruct (news_impact_accumulate articles 0 0) as [ti n]. cbn [fst snd] in Hb.
    destruct (Nat.ltb_spec 0 n) as [Hn|Hn]; [|lra].
    apply Qdiv_bounds; [apply inject_nat_pos; lia|].
    assert (H0 : (0 <= 0 <= inject_Z (Z.of_nat 0))%Q)
      by (change (inject_Z (Z.of_nat 0)) with 0%Q; lra).
    specialize (Hb H0). lra.
  - intros Hnone. destruct articles as [|a0 rest0] eqn:Harts; [done|].
    rewrite <- Harts in *.
    by rewrite (news_impact_accumulate_none articles 0 0 Hnone).
Qed.

(** One high-impact article at confidence 0.9 scores 0.9. *)
Lemma news_impact_in_unit_witness :
  let a := mkNewsArticle 1 "AAPL beats" "" None (Some "positive")
             (Some (8 # 10)%Q) (Some "high") (Some (9 # 10)%Q) 10 in
  Forall (λ a, in_unit (gpt_impact_confidence a)) [a]
  ∧ (0 <= _calculate_news_impact [a] <= 1)%Q.
Proof.
  intros a.
  assert (Hall : Forall (λ a, in_unit (gpt_impact_confidence a)) [a]).
  { constructor; [|constructor]. intros x [= <-]; split; discriminate. }
  split; [exact Hall|].
  exact (proj1 (news_impact_in_unit [a] Hall)).
Defined.

(** ** Moving averages *)

Lemma ema_multiplier_unit (period : nat) :
  1 ≤ period →
  (0 <= 2 / (inject_Z (Z.of_nat period) + 1) <= 1)%Q.
Proof.
  intros Hp.
  assert (H1 : (1 <= inject_Z (Z.of_nat period))%Q).
  { change 1%Q with (inject_Z 1). rewrite <- Zle_Qle. lia. }
  split.
  - apply Qle_shift_div_l; lra.
  - apply Qle_shift_div_r; lra.
Qed.

Lemma ema_step_bounds (lo hi m p e : Q) :
  (0 <= m <= 1)%Q → (lo <= p <= hi)%Q → (lo <= e <= hi)%Q →
  (lo <= p * m + e * (1 - m) <= hi)%Q.
Proof.
  intros Hm Hp He.
  assert (H1 : (0 <= (p - lo) * m)%Q) by (apply Qmult_le_0_compat; lra).
  assert (H2 : (0 <= (e - lo) * (1 - m))%Q) by (apply Qmult_le_0_compat; lra).
  assert (H3 : (0 <= (hi - p) * m)%Q) by (apply Qmult_le_0_compat; lra).
  assert (H4 : (0 <= (hi - e) * (1 - m))%Q) by (apply Qmult_le_0_compat; lra).
  assert (E1 : (p * m + e * (1 - m)
                == (p - lo) * m + (e - lo) * (1 - m) + lo)%Q) by ring.
  assert (E2 : (p * m + e * (1 - m)
                == hi - ((hi - p) * m + (hi - e) * (1 - m)))%Q) by ring.
  split; [rewrite E1 | rewrite E2]; lra.
Qed.

Lemma ema_fold_bounds (lo hi m e : Q) (rest : list Q) :
  (0 <= m <= 1)%Q → (lo <= e <= hi)%Q →
  Forall (λ p, (lo <= p <= hi)%Q) rest →
  (lo <= foldl (λ ema price, (price * m + ema * (1 - m))%Q) e rest <= hi)%Q.
Proof.
  intros Hm He Hall. revert e He.
  induction Hall as [|p rest Hp _ IH]; intros e He; simpl; [done|].
  apply IH. by apply ema_step_bounds.
Qed.

(** The EMA of a history at least as long as the period. *)
Lemma ema_long_history (prices : list Q) (period : nat) (lo hi : Q) :
  1 ≤ period ≤ length prices →
  Forall (λ p, (lo <= p <= hi)%Q) prices →
  ∃ e, _calculate_ema prices period = Some (Finite e) ∧ (lo <= e <= hi)%Q.
Proof.
  intros [Hp Hlen] Hall. unfold _calculate_ema.
  destruct (Nat.ltb_spec (length prices) period) as [?|_]; [lia|].
  destruct Hall as [|first rest Hf Hrest]; [simpl in Hlen; lia|].
  eexists. split; [reflexivity|].
  apply ema_fold_bounds; [by apply ema_multiplier_unit|done|done].
Qed.

(** X10: for a period of at least 1 and a history at least as long, the EMA is a
    finite value that lies within any range that holds all the prices: it
    never leaves the span between the lowest and the highest price. *)
Theorem ema_within_price_range (prices : list Q) (period : nat) (lo hi : Q) :
  1 ≤ period ≤ length prices →
  Forall (λ p, (lo <= p <= hi)%Q) prices →
  ∃ e, _calculate_ema prices period = Some (Finite e) ∧ (lo <= e <= hi)%Q.
Proof. apply ema_long_history. Qed.

(** The 2-period EMA of 10, 13, 16 lies between 10 and 16. *)
Lemma ema_within_price_range_witness :
  1 ≤ 2 ≤ length [10; 13; 16]%Q
  ∧ Forall (λ p, (10 <= p <= 16)%Q) [10; 13; 16]%Q
  ∧ ∃ e, _calculate_ema [10; 13; 16]%Q 2 = Some (Finite e)
         ∧ (10 <= e <= 16)%Q.
Proof.
  assert (Hlen : 1 ≤ 2 ≤ length [10; 13; 16]%Q) by (simpl; lia).
  assert (Hall : Forall (λ p, (10 <= p <= 16)%Q) [10; 13; 16]%Q).
  { repeat (constructor; [split; discriminate|]). constructor. }
  split; [exact Hlen|]. split; [exact Hall|].
  exact (ema_within_price_range [10; 13; 16]%Q 2 10 16 Hlen Hall).
Defined.

Lemma ema_long_history_finite (prices : list Q) (period : nat) :
  1 ≤ period ≤ length prices →
  ∃ e, _calculate_ema prices period = Some (Finite e).
Proof.
  intros [Hp Hlen]. unfold _calculate_ema.
  destruct (Nat.ltb_spec (length prices) period) as [?|_]; [lia|].
  destruct prices; [simpl in Hlen; lia|]. by eexists.
Qed.

(** X11: the MACD never raises and is never NaN: it is 0 for fewer than 26
    prices, and otherwise a finite difference of two EMAs, so its size is at
    most the spread of the prices; on a constant history it is 0. *)
Theorem macd_is_finite_and_bounded (prices : list Q) :
  ∃ m, _calculate_macd prices = Some (Finite m)
       ∧ (length prices < 26 → m = 0%Q)
       ∧ (∀ lo hi, (lo <= hi)%Q → Forall (λ p, (lo <= p <= hi)%Q) prices →
                   (- (hi - lo) <= m <= hi - lo)%Q)
       ∧ (∀ c, Forall (λ p, (p == c)%Q) prices → (m == 0)%Q).
Proof.
  unfold _calculate_macd.
  destruct (Nat.ltb_spec (length prices) 26) as [Hshort|Hlong].
  { exists 0%Q. split; [done|]. split; [done|]. split.
    - intros lo hi Hle _. lra.
    - intros c _. reflexivity. }
  destruct (ema_long_history_finite prices 12) as [e12 H12]; [lia|].
  destruct (ema_long_history_finite prices 26) as [e26 H26]; [lia|].
  rewrite H12, H26. simpl. exists (e12 - e26)%Q.
  assert (Hbound : ∀ lo hi, Forall (λ p, (lo <= p <= hi)%Q) prices →
                     (- (hi - lo) <= e12 - e26 <= hi - lo)%Q).
  { intros lo hi Hall.
    destruct (ema_long_history prices 12 lo hi) as (a & Ha & Hra);
      [lia|done|].
    destruct (ema_long_history prices 26 lo hi) as (b & Hb & Hrb);
      [lia|done|].
    rewrite H12 in Ha. rewrite H26 in Hb.
    injection Ha as <-. injection Hb as <-. lra. }
  split; [done|]. split; [lia|]. split.
  - intros lo hi _. apply Hbound.
  - intros c Hconst.
    assert (Hall : Forall (λ p, (c <= p <= c)%Q) prices).
    { eapply Forall_impl; [exact Hconst|]. intros p Hp. simpl in Hp.
      rewrite Hp. lra. }
    specialize (Hbound c c Hall). lra.
Qed.

(** ** Relative strength index, flat and falling prices *)

Lemma price_deltas_sorted (R : Q → Q → Prop) (P : Q → Prop)
    (prices : list Q) :
  (∀ a b, R a b → P (b - a)%Q) →
  Sorted R prices → Forall P (price_deltas prices).
Proof.
  intros HRP. unfold price_deltas.
  induction 1 as [|p l Hs IH Hd]; simpl; [constructor|].
  destruct l as [|q l]; simpl in *; [constructor|].
  constructor; [|exact IH].
  apply HRP. by apply HdRel_inv in Hd.
Qed.

Lemma price_deltas_length (prices : list Q) :
  length (price_deltas prices) = length prices - 1.
Proof.
  unfold price_deltas. rewrite length_zip_with.
  destruct prices; [done|]. cbn [tail length]. lia.
Qed.

Lemma last_n_length {A} (n : nat) (l : list A) :
  n ≤ length l → 1 ≤ n → length (last_n n l) = n.
Proof.
  intros Hn H1. destruct n; [lia|]. simpl. rewrite length_drop. lia.
Qed.

Lemma Qsum_pos (l : list Q) :
  l ≠ [] → Forall (λ x, (0 < x)%Q) l → (0 < Qsum l)%Q.
Proof.
  intros Hne Hall. destruct Hall as [|x l Hx Hl]; [done|]. simpl.
  assert (H0 : (0 <= Qsum l)%Q).
  { apply Qsum_nonneg. eapply Forall_impl; [exact Hl|].
    intros y Hy. simpl in Hy. lra. }
  lra.
Qed.

(** X12: for at least 15 prices that never fall (a flat history included) the
    index is exactly 100: with no losses the average loss is 0. For at least
    15 strictly falling prices it is 0. A flat market therefore reads as
    fully overbought, not as neutral. *)
Theorem rsi_flat_and_falling (prices : list Q) :
  15 ≤ length prices →
  (Sorted Qle prices → _calculate_rsi prices 14 = 100%Q)
  ∧ (Sorted (λ a b, (b < a)%Q) prices → (_calculate_rsi prices 14 == 0)%Q).
Proof.
  intros Hlen. unfold _calculate_rsi.
  destruct (Nat.ltb_spec (length prices) (14 + 1)); [lia|].
  set (gains := map (λ d, if negb (Qle_bool d 0) then d else 0%Q) _).
  set (losses := map (λ d, if negb (Qle_bool 0 d) then (- d)%Q else 0%Q) _).
  assert (Hll : length losses = length prices - 1).
  { unfold losses. by rewrite length_map, price_deltas_length. }
  split.
  - intros Hup.
    assert (Hl : Forall (λ x, x = 0%Q) losses).
    { apply Forall_map.
      eapply Forall_impl;
        [apply (price_deltas_sorted Qle (λ d, (0 <= d)%Q)); [|exact Hup]|].
      - intros a b Hab. lra.
      - intros d Hd. simpl in *. apply Qle_bool_iff in Hd. by rewrite Hd. }
    unfold mean. rewrite (Qsum_zero (last_n 14 losses)); [reflexivity|].
    by apply last_n_Forall.
  - intros Hdown.
    pose proof (price_deltas_sorted (λ a b, (b < a)%Q) (λ d, (d < 0)%Q)
                  prices) as Hneg.
    assert (Hd : Forall (λ d, (d < 0)%Q) (price_deltas prices)).
    { apply Hneg; [|exact Hdown]. intros a b Hab. simpl in Hab. lra. }
    assert (Hg : Forall (λ x, x = 0%Q) gains).
    { apply Forall_map. eapply Forall_impl; [exact Hd|].
      intros d Hlt. simpl in *.
      assert (Hle : (d <= 0)%Q) by lra.
      apply Qle_bool_iff in Hle. by rewrite Hle. }
    assert (Hl : Forall (λ x, (0 < x)%Q) losses).
    { apply Forall_map. eapply Forall_impl; [exact Hd|].
      intros d Hlt. simpl in *.
      assert (Hf : Qle_bool 0 d = false) by (by apply Qle_bool_false).
      rewrite Hf. simpl. lra. }
    assert (Hlast : length (last_n 14 losses) = 14)
      by (apply last_n_length; lia).
    assert (Hpos : (0 < mean (last_n 14 losses))%Q).
    { unfold mean. rewrite Hlast.
      apply Qlt_shift_div_l; [reflexivity|].
      assert (Hs : (0 < Qsum (last_n 14 losses))%Q).
      { apply Qsum_pos; [|by apply last_n_Forall].
        intros Hnil. rewrite Hnil in Hlast. discriminate. }
      lra. }
    destruct (Qeq_bool (mean (last_n 14 losses)) 0) eqn:Hz.
    { apply Qeq_bool_iff in Hz. lra. }
    assert (Hgain : (mean (last_n 14 gains) == 0)%Q).
    { unfold mean. rewrite (Qsum_zero (last_n 14 gains));
        [|by apply last_n_Forall].
      unfold Qdiv. ring. }
    rewrite Hgain.
    assert (Hrs : (0 / mean (last_n 14 losses) == 0)%Q)
      by (unfold Qdiv; ring).
    rewrite Hrs. reflexivity.
Qed.

(** Fifteen prices all equal to 7, and the fifteen prices 15, 14, ..., 1. *)
Lemma rsi_flat_and_falling_witness :
  let flat := replicate 15 7%Q in
  let falling := map (λ n, inject_Z (Z.of_nat (15 - n))) (seq 0 15) in
  15 ≤ length flat
  ∧ _calculate_rsi flat 14 = 100%Q
  ∧ (_calculate_rsi falling 14 == 0)%Q.
Proof.
  intros flat falling.
  assert (Hlen : 15 ≤ length flat) by (simpl; lia).
  assert (Hlen' : 15 ≤ length falling) by (simpl; lia).
  split; [exact Hlen|]. split.
  - apply (proj1 (rsi_flat_and_falling flat Hlen)).
    unfold flat. simpl. repeat (constructor; try discriminate).
  - apply (proj2 (rsi_flat_and_falling falling Hlen')).
    unfold falling. simpl. repeat (constructor; try reflexivity).
Defined.

(** ** Technical indicators *)

Lemma clamp_range (x : Q) : (0 <= Qmax 0 (Qmin 1 x) <= 1)%Q.
Proof.
  split.
  - apply Q.le_max_l.
  - apply Q.max_lub; [lra | apply Q.le_min_l].
Qed.

Section TechnicalProperties.

Context (sqrt : Q → Q).

(** X13: the overall technical score is always present and lies in [0, 1]; it is
    the neutral 0.5, with no indicator values, for an empty history and for
    a market-data snapshot without a last price. The signal derived from it
    is one of the five types with a confidence in [0.1, 1]. *)
Theorem technical_score_in_unit (historical_data : list Bar)
    (market_data : option MarketData) :
  let scores := _calculate_technical_indicators sqrt historical_data
                  market_data in
  (∃ s, overall_score scores = Some s ∧ (0 <= s <= 1)%Q)
  ∧ (historical_data = [] → scores = neutral_scores)
  ∧ ((∃ snapshot, market_data = Some snapshot ∧ last_price snapshot = None) →
     scores = neutral_scores)
  ∧ (1 # 10 <= (_calculate_technical_signal scores).2 <= 1)%Q
  ∧ (_calculate_technical_signal scores).1
    ∈ ["strong_sell"; "sell"; "hold"; "buy"; "strong_buy"].
Proof.
  intros scores.
  assert (Hscore : ∃ s, overall_score scores = Some s ∧ (0 <= s <= 1)%Q).
  { unfold scores, _calculate_technical_indicators.
    destruct historical_data as [|bar bars]; [exists (1 # 2)%Q; by split|].
    repeat case_match;
      try (exists (1 # 2)%Q; by split);
      (eexists; split; [reflexivity|apply clamp_range]). }
  split; [exact Hscore|].
  split; [by intros ->|].
  split.
  { intros (snapshot & -> & Hlast). unfold scores,
      _calculate_technical_indicators.
    destruct historical_data as [|bar bars]; [done|].
    rewrite Hlast. by repeat case_match. }
  destruct Hscore as (s & Hs & Hrange).
  destruct (technical_confidence_cases scores) as (Hlow & Hval & _).
  pose proof (technical_type_cases scores) as Htype.
  cbv zeta in Htype. rewrite Hs in Hval.
  change (default (1 # 2)%Q (Some s)) with s in Hval.
  split.
  - split; [done|]. destruct Hval as [Hv|[Hv|Hv]]; rewrite Hv; lra.
  - destruct Htype as [[_ Ht]|[[_ Ht]|[[_ Ht]|[[_ Ht]|[_ Ht]]]]];
      rewrite Ht; in_list.
Qed.

(** X14: with fewer prices than the period both bands are the latest price; an
    empty history raises. With at least [period] prices the bands are
    finite and symmetric about the mean of the last [period] prices, and the
    lower band does not exceed the upper one when the multiplier and the
    deviation are not negative. *)
Theorem bollinger_bands_shape (prices : list Q) (period : nat) (std_dev : Q) :
  (length prices < period →
   _calculate_bollinger_bands sqrt prices period std_dev
   = (λ p, (Finite p, Finite p)) <$> last prices)
  ∧ (1 ≤ period ≤ length prices →
     ∃ upper lower,
       _calculate_bollinger_bands sqrt prices period std_dev
       = Some (Finite upper, Finite lower)
       ∧ (upper + lower == 2 * mean (last_n period prices))%Q
       ∧ ((0 <= std_dev)%Q →
          (0 <= np_std sqrt (last_n period prices))%Q →
          (lower <= mean (last_n period prices) <= upper)%Q)).
Proof.
  unfold _calculate_bollinger_bands. split.
  - intros Hshort.
    destruct (Nat.ltb_spec (length prices) period); [|lia].
    by destruct (last prices).
  - intros [Hp Hlen].
    destruct (Nat.ltb_spec (length prices) period); [lia|].
    assert (Hl : length (last_n period prices) = period)
      by (by apply last_n_length).
    destruct (last_n period prices) as [|x rest] eqn:Hrecent;
      [simpl in Hl; lia|].
    do 2 eexists. split; [reflexivity|]. split; [ring|].
    intros Hk Hstd.
    assert (Hprod : (0 <= np_std sqrt (x :: rest) * std_dev)%Q)
      by (by apply Qmult_le_0_compat).
    lra.
Qed.

End TechnicalProperties.

(** ** Performance statistics *)

Lemma list_max_upper (x : Q) (l : list Q) :
  (x <= list_max x l)%Q ∧ Forall (λ y, (y <= list_max x l)%Q) l.
Proof.
  unfold list_max. revert x.
  induction l as [|y l IH]; intros x; simpl.
  { split; [lra|constructor]. }
  destruct (IH (Qmax x y)) as [Hm Hall].
  pose proof (Q.le_max_l x y). pose proof (Q.le_max_r x y).
  split; [lra|]. constructor; [lra|done].
Qed.

Lemma list_min_lower (x : Q) (l : list Q) :
  (list_min x l <= x)%Q ∧ Forall (λ y, (list_min x l <= y)%Q) l.
Proof.
  unfold list_min. revert x.
  induction l as [|y l IH]; intros x; simpl.
  { split; [lra|constructor]. }
  destruct (IH (Qmin x y)) as [Hm Hall].
  pose proof (Q.le_min_l x y). pose proof (Q.le_min_r x y).
  split; [lra|]. constructor; [lra|done].
Qed.

Lemma Qsum_bounds (lo hi : Q) (l : list Q) :
  Forall (λ y, (lo <= y <= hi)%Q) l →
  (lo * inject_Z (Z.of_nat (length l)) <= Qsum l
   <= hi * inject_Z (Z.of_nat (length l)))%Q.
Proof.
  induction 1 as [|y l Hy _ IH]; simpl length; simpl Qsum.
  { change (inject_Z (Z.of_nat 0)) with 0%Q. lra. }
  rewrite inject_nat_S. lra.
Qed.

Lemma mean_between (lo hi : Q) (l : list Q) :
  l ≠ [] → Forall (λ y, (lo <= y <= hi)%Q) l → (lo <= mean l <= hi)%Q.
Proof.
  intros Hne Hall. unfold mean. apply Qdiv_bounds.
  - apply inject_nat_pos. by destruct l.
  - by apply Qsum_bounds.
Qed.

(** X15: the statistics over the executed signals that carry a performance
    score: the count is their number; the average lies between the worst
    and the best score; the success rate lies in [0, 1]; with no such
    signal every figure is 0. *)
Theorem performance_stats_consistent (signals : gmap Z TradingSignal) :
  let stats := get_signal_performance_stats signals in
  total_signals stats = length (executed_performances signals)
  ∧ (worst_performance stats <= average_performance stats
     <= best_performance stats)%Q
  ∧ (0 <= success_rate stats <= 1)%Q
  ∧ (executed_performances signals = [] →
     stats = mkPerformanceStats 0 0 0 0 0)
  ∧ Forall (λ p, (worst_performance stats <= p <= best_performance stats)%Q)
      (executed_performances signals).
Proof.
  intros stats. unfold stats, get_signal_performance_stats.
  destruct (executed_performances signals) as [|first rest]; simpl.
  { repeat split; try lra; constructor. }
  destruct (list_max_upper first rest) as [Hmx Hmxs].
  destruct (list_min_lower first rest) as [Hmn Hmns].
  assert (Hall : Forall (λ p, (list_min first rest <= p
                               <= list_max first rest)%Q) (first :: rest)).
  { constructor; [lra|].
    apply Forall_and. by split. }
  split; [done|]. split; [by apply mean_between|]. split.
  - set (pos := filter _ (first :: rest)).
    assert (Hle : length pos ≤ length (first :: rest))
      by apply length_filter.
    assert (Hn : (0 < inject_Z (Z.of_nat (S (length rest))))%Q)
      by (by apply inject_nat_pos).
    assert (Hp : (0 <= inject_Z (Z.of_nat (length pos))
                  <= inject_Z (Z.of_nat (S (length rest))))%Q).
    { split; [apply inject_nat_nonneg|].
      rewrite <- Zle_Qle. simpl in Hle. lia. }
    apply Qdiv_bounds; [done|lra].
  - split; [done|exact Hall].
Qed.

(** ** Expiry, as the signal and as the sweep see it *)

(** X16: a signal's own expiry test agrees with the sweep: the sweep at a time
    changes the row of a signal exactly when the signal is active and
    [is_expired] holds at that time. A signal with time left is not expired
    and is left alone, and at the very instant of its expiry time a signal
    is neither expired nor has time left. *)
Theorem expiry_agrees_with_sweep (now : Z) (signals : gmap Z TradingSignal)
    (k : Z) (s : TradingSignal) :
  signals !! k = Some s →
  let after := (expire_old_signals now signals).2 in
  (after !! k = Some (if String.eqb (status s) "active" && is_expired now s
                      then set_status "expired" s else s))
  ∧ (is_expired now s = true → get_time_to_expiry now s = None)
  ∧ (∀ left, get_time_to_expiry now s = Some left →
             (0 < left)%Z ∧ is_expired now s = false ∧ after !! k = Some s)
  ∧ (expiry_time s = Some now →
     is_expired now s = false ∧ get_time_to_expiry now s = None).
Proof.
  intros Hs after. unfold after, expire_old_signals. cbn [snd].
  rewrite lookup_fmap, Hs. cbn [fmap option_fmap option_map].
  unfold expiry_due, is_expired, get_time_to_expiry.
  destruct (expiry_time s) as [t|]; cbn.
  - split; [done|]. split.
    { intros Hlt%Z.ltb_lt.
      destruct (Z.ltb_spec 0 (t - now)); [lia|done]. }
    split.
    { intros left.
      destruct (Z.ltb_spec 0 (t - now)) as [Hpos|]; [|done].
      intros [= <-].
      assert (Hnot : (t <? now)%Z = false) by (apply Z.ltb_ge; lia).
      rewrite Hnot, andb_false_r. by repeat split. }
    intros [= ->]. rewrite Z.ltb_irrefl, Z.sub_diag. by split.
  - rewrite andb_false_r. repeat split; try done; intros left [=].
Qed.

(** An active signal whose expiry time passed a moment ago is expired by
    its own test and by the sweep. *)
Lemma expiry_agrees_with_sweep_witness :
  let s := mkTradingSignal 1 sample_ticker "buy" (8 # 10) "active"
             (Some 5%Z) None None None in
  ({[ 1%Z := s ]} : gmap Z TradingSignal) !! 1%Z = Some s
  ∧ (expire_old_signals 10 {[ 1%Z := s ]}).2 !! 1%Z
    = Some (set_status "expired" s).
Proof.
  intros s.
  assert (Hs : ({[ 1%Z := s ]} : gmap Z TradingSignal) !! 1%Z = Some s)
    by reflexivity.
  split; [exact Hs|].
  exact (proj1 (expiry_agrees_with_sweep 10 {[ 1%Z := s ]} 1 s Hs)).
Defined.

(** ** Price changes *)

(** X17: the percentage change of a snapshot is defined exactly when the plain
    change is, namely when the last and the close price are both set and
    non-zero, and it is then the change over the close price times 100. A
    last price of exactly 0 counts as missing. For a historical bar the
    percentage is missing exactly when the bar opened at 0. *)
Theorem price_change_percent_consistent (self : MarketData) (bar : Bar) :
  (is_Some (calculate_price_change_percent self)
   ↔ is_Some (calculate_price_change self))
  ∧ (is_Some (calculate_price_change self)
     ↔ ∃ last close, last_price self = Some last ∧ close_price self = Some close
                     ∧ ¬ (last == 0)%Q ∧ ¬ (close == 0)%Q)
  ∧ (∀ change percent close,
        calculate_price_change self = Some change →
        calculate_price_change_percent self = Some percent →
        close_price self = Some close →
        percent = (change / close * 100)%Q)
  ∧ (get_price_change_percent bar = None ↔ (bar_open bar == 0)%Q)
  ∧ (∀ percent, get_price_change_percent bar = Some percent →
                percent = (get_price_change bar / bar_open bar * 100)%Q).
Proof.
  unfold calculate_price_change_percent, calculate_price_change,
    get_price_change_percent, get_price_change, opt_num_truthy.
  destruct (last_price self) as [last|], (close_price self) as [close|];
    cbn [andb negb].
  all: try destruct (Qeq_bool last 0) eqn:Hl; cbn [andb negb].
  all: try destruct (Qeq_bool close 0) eqn:Hc; cbn [andb negb].
  all: destruct (Qeq_bool (bar_open bar) 0) eqn:Ho; cbn [negb].
  all: try apply Qeq_bool_iff in Hl; try apply Qeq_bool_iff in Hc;
       try apply Qeq_bool_iff in Ho.
  all: repeat split;
       try (intros [? [=]]; fail);
       try (by eexists);
       try (intros (? & ? & [=] & [=] & ? & ?); subst; try done; fail);
       try (intros; simplify_eq; done);
       try done.
  all: try (intros _; do 2 eexists; repeat split; try done;
            intros Hz; apply Qeq_bool_iff in Hz; congruence).
  all: try (intros Hz; apply Qeq_bool_iff in Hz; congruence).
Qed.

(** ** Webhook delivery, further *)

Section WebhookFurther.

Context (json_dumps : Payload → string)
        (generate_webhook_signature : string → string → string)
        (endpoint : nat → Request → HttpOutcome).

(** What one failed attempt does to the record and the state. *)
Lemma failed_attempt_effect (attempt : nat) (msg : string)
    (request : Request) (d : SignalDelivery) (w : World) :
  let d1 := set_error_message msg (begin_attempt attempt d (clock w)) in
  let w1 := save_delivery d1 (record_post request
                                (save_delivery
                                   (begin_attempt attempt d (clock w)) w)) in
  let r := wait_before_retry attempt d1 w1 in
  delivery_attempts r.1 = delivery_attempts d + 1
  ∧ posted r.2 = posted w ++ [request]
  ∧ clock r.2 = (clock w + scheduled_delay attempt * 1000000)%Z
  ∧ (attempt < max_retry_attempts - 1 → next_retry r.1 = Some (clock r.2))
  ∧ (¬ attempt < max_retry_attempts - 1 → next_retry r.1 = next_retry d).
Proof.
  unfold wait_before_retry, scheduled_delay.
  destruct (Nat.ltb_spec attempt (max_retry_attempts - 1)); simpl;
    repeat split; try done; try lia; intros; simpl in *; lia.
Qed.




(** The loop when the first [k] posts fail and the next one succeeds. *)
Lemma attempt_loop_first_success (k : nat) (attempts : list nat)
    (url payload_json : string) (headers : list (string * string))
    (d : SignalDelivery) (w : World) :
  k < length attempts →
  (∀ i q, i < k → is_success (endpoint (length (posted w) + i) q) = false) →
  (∀ q, is_success (endpoint (length (posted w) + k) q) = true) →
  let request := mkRequest url payload_json headers 30 in
  let r := attempt_loop endpoint attempts url payload_json headers d w in
  r.1.1 = Some true
  ∧ posted r.2 = posted w ++ replicate (S k) request
  ∧ delivery_attempts r.1.2 = delivery_attempts d + S k
  ∧ delivery_status r.1.2 = "delivered"
  ∧ error_message r.1.2 = ""
  ∧ delivered_at r.1.2 = Some (clock r.2)
  ∧ clock r.2 = (clock w + total_delay (take k attempts) * 1000000)%Z.
Proof.
  revert attempts d w.
  induction k as [|k IH]; intros attempts d w Hlen Hfails Hok;
    (destruct attempts as [|attempt rest]; [simpl in Hlen; lia|]); simpl.
  - specialize (Hok (mkRequest url payload_json headers 30)).
    rewrite Nat.add_0_r in Hok.
    destruct (endpoint _ _) as [status_code text|e]; simpl in Hok; [|done].
    rewrite Hok. simpl. repeat split; try done. lia.
  - set (request := mkRequest url payload_json headers 30).
    assert (Hfirst := Hfails 0 request ltac:(lia)).
    rewrite Nat.add_0_r in Hfirst.
    assert (Hgo : ∀ msg,
      let f := wait_before_retry attempt
                 (set_error_message msg (begin_attempt attempt d (clock w)))
                 (save_delivery
                    (set_error_message msg (begin_attempt attempt d (clock w)))
                    (record_post request
                       (save_delivery (begin_attempt attempt d (clock w)) w))) in
      let r := attempt_loop endpoint rest url payload_json headers f.1 f.2 in
      r.1.1 = Some true
      ∧ posted r.2 = posted w ++ request :: request :: replicate k request
      ∧ delivery_attempts r.1.2 = delivery_attempts d + S (S k)
      ∧ delivery_status r.1.2 = "delivered"
      ∧ error_message r.1.2 = ""
      ∧ delivered_at r.1.2 = Some (clock r.2)
      ∧ clock r.2
        = (clock w
           + (scheduled_delay attempt + total_delay (take k rest)) * 1000000)%Z).
    { intros msg f r.
      destruct (failed_attempt_effect attempt msg request d w)
        as (Ha & Hp & Hc & _).
      fold f in Ha, Hp, Hc.
      destruct (IH rest f.1 f.2) as (H1 & H2 & H3 & H4 & H5 & H6 & H7).
      + simpl in Hlen. lia.
      + intros i q Hi. rewrite Hp, length_app. simpl.
        replace (length (posted w) + 1 + i) with (length (posted w) + S i)
          by lia.
        apply Hfails. lia.
      + intros q. rewrite Hp, length_app. simpl.
        replace (length (posted w) + 1 + k) with (length (posted w) + S k)
          by lia.
        apply Hok.
      + fold r in H1, H2, H3, H4, H5, H6, H7.
        repeat split; try done.
        * rewrite H2, Hp, <- app_assoc. done.
        * lia.
        * lia. }
    destruct (endpoint _ request) as [status_code text|e]; simpl in Hfirst.
    + rewrite Hfirst.
      specialize (Hgo ("HTTP " ++ pretty status_code ++ ": " ++ text)%string).
      cbv zeta in Hgo. by destruct (wait_before_retry _ _ _).
    + specialize (Hgo ("Request error: " ++ e)%string).
      cbv zeta in Hgo. by destruct (wait_before_retry _ _ _).
Qed.

(** X19: delivery stops at the first success: when the first [k] posts of a call
    fail (k below 5) and the next one is answered with 200, the call posts
    exactly [k + 1] requests, counts [k + 1] attempts, sleeps the first [k]
    delays of the schedule, and leaves the record [delivered], saved, with
    the error message cleared and the delivery time stamped. *)
Theorem delivery_stops_at_first_success (k : nat) (subscriber : APISubscriber)
    (payload : Payload) (delivery : SignalDelivery) (w : World) :
  k < 5 →
  (∀ i q, i < k → is_success (endpoint (length (posted w) + i) q) = false) →
  (∀ q, is_success (endpoint (length (posted w) + k) q) = true) →
  let r := _deliver_webhook json_dumps generate_webhook_signature endpoint
             subscriber payload delivery w in
  r.1.1 = true
  ∧ length (posted r.2) = length (posted w) + S k
  ∧ delivery_attempts r.1.2 = delivery_attempts delivery + S k
  ∧ delivery_status r.1.2 = "delivered"
  ∧ error_message r.1.2 = ""
  ∧ delivered_at r.1.2 = Some (clock r.2)
  ∧ clock r.2 = (clock w + total_delay (seq 0 k) * 1000000)%Z
  ∧ deliveries r.2 !! delivery_key delivery = Some r.1.2.
Proof.
  intros Hk Hfails Hok r.
  destruct (deliver_webhook_outcome json_dumps generate_webhook_signature
              endpoint subscriber payload delivery w) as [Hsaved _].
  fold r in Hsaved.
  unfold r, _deliver_webhook in *.
  match goal with |- context [attempt_loop endpoint ?a ?u ?p ?h ?d ?w] =>
    destruct (attempt_loop_first_success k a u p h d w)
      as (H1 & H2 & H3 & H4 & H5 & H6 & H7);
      [simpl; lia | exact Hfails | exact Hok |];
    destruct (attempt_loop endpoint a u p h d w) as [[o d'] w']
  end.
  cbn [fst snd] in *. subst o. cbn [fst snd] in *.
  repeat split; try done.
  - rewrite H2, length_app, length_replicate. done.
  - rewrite H7. do 2 f_equal.
    unfold max_retry_attempts.
    replace (take k (seq 0 5)) with (seq 0 k); [done|].
    do 5 (destruct k as [|k]; [done|]). lia.
Qed.

(** The loop when every post fails: the time slept and the retry stamp. *)
Lemma attempt_loop_all_fail_clock (attempts : list nat)
    (url payload_json : string) (headers : list (string * string))
    (d : SignalDelivery) (w : World) :
  (∀ n q, is_success (endpoint n q) = false) →
  let r := attempt_loop endpoint attempts url payload_json headers d w in
  clock r.2 = (clock w + total_delay attempts * 1000000)%Z
  ∧ (next_retry d = Some (clock w) → next_retry r.1.2 = Some (clock r.2))
  ∧ ((∃ attempt, attempt ∈ attempts ∧ attempt < max_retry_attempts - 1) →
     next_retry r.1.2 = Some (clock r.2)).
Proof.
  intros Hnever. revert d w.
  induction attempts as [|attempt rest IH]; intros d w; simpl.
  { repeat split; try done; try lia.
    intros (a & Ha & _). by apply elem_of_nil in Ha. }
  set (request := mkRequest url payload_json headers 30).
  assert (Hgo : ∀ msg,
    let f := wait_before_retry attempt
               (set_error_message msg (begin_attempt attempt d (clock w)))
               (save_delivery
                  (set_error_message msg (begin_attempt attempt d (clock w)))
                  (record_post request
                     (save_delivery (begin_attempt attempt d (clock w)) w))) in
    let r := attempt_loop endpoint rest url payload_json headers f.1 f.2 in
    clock r.2
    = (clock w + (scheduled_delay attempt + total_delay rest) * 1000000)%Z
    ∧ (next_retry d = Some (clock w) → next_retry r.1.2 = Some (clock r.2))
    ∧ ((∃ a, a ∈ attempt :: rest ∧ a < max_retry_attempts - 1) →
       next_retry r.1.2 = Some (clock r.2))).
  { intros msg f r.
    destruct (failed_attempt_effect attempt msg request d w)
      as (_ & _ & Hc & Hset & Hkeep).
    fold f in Hc, Hset, Hkeep.
    destruct (IH f.1 f.2) as (H1 & H2 & H3). fold r in H1, H2, H3.
    assert (Hstamp : next_retry d = Some (clock w) ∨
                     attempt < max_retry_attempts - 1 →
                     next_retry f.1 = Some (clock f.2)).
    { intros Hcase.
      destruct (decide (attempt < max_retry_attempts - 1)) as [Hlt|Hge].
      - by apply Hset.
      - destruct Hcase as [Hd|?]; [|done].
        rewrite (Hkeep Hge), Hd, Hc. unfold scheduled_delay.
        destruct (Nat.ltb_spec attempt (max_retry_attempts - 1)); [done|].
        f_equal. lia. }
    split; [lia|]. split.
    - intros Hd. apply H2, Hstamp. by left.
    - intros (a & Ha & Hlt). apply elem_of_cons in Ha as [->|Ha].
      + apply H2, Hstamp. by right.
      + apply H3. by exists a. }
  match goal with |- context [endpoint ?n request] =>
    specialize (Hnever n request) as Hn;
    destruct (endpoint n request) as [status_code text|e]
  end; simpl in Hn.
  - rewrite Hn.
    specialize (Hgo ("HTTP " ++ pretty status_code ++ ": " ++ text)%string).
    cbv zeta in Hgo. by destruct (wait_before_retry _ _ _).
  - specialize (Hgo ("Request error: " ++ e)%string).
    cbv zeta in Hgo. by destruct (wait_before_retry _ _ _).
Qed.

(** X20: when every post fails the call sleeps 1 + 5 + 15 + 60 = 81 seconds in
    all: there is no wait after the fifth attempt, so the schedule's last
    entry of 300 seconds is never used. The record's retry time is then the
    very moment the call ends. *)
Theorem exhausted_delivery_sleeps_81_seconds (subscriber : APISubscriber)
    (payload : Payload) (delivery : SignalDelivery) (w : World) :
  (∀ n q, is_success (endpoint n q) = false) →
  let r := _deliver_webhook json_dumps generate_webhook_signature endpoint
             subscriber payload delivery w in
  r.1.1 = false
  ∧ clock r.2 = (clock w + 81 * 1000000)%Z
  ∧ next_retry r.1.2 = Some (clock r.2).
Proof.
  intros Hnever r. unfold r, _deliver_webhook.
  match goal with |- context [attempt_loop endpoint ?a ?u ?p ?h ?d ?w] =>
    pose proof (attempt_loop_never_succeeds endpoint a u p h d w Hnever)
      as Hnone;
    destruct (attempt_loop_all_fail_clock a u p h d w Hnever)
      as (Hc & _ & Hstamp);
    destruct (attempt_loop endpoint a u p h d w) as [[o d'] w']
  end.
  cbn [fst snd] in *. subst o. cbn [fst snd].
  split; [done|]. split; [exact Hc|].
  simpl. apply Hstamp. exists 0. split; [repeat constructor|].
  unfold max_retry_attempts. lia.
Qed.




(** X23: the task entry point never posts a request and never changes anything:
    for an unknown signal id it returns [False]; for a known one the fan-out
    raises [NameError] before it reaches a subscriber. *)
Theorem deliver_signal_webhook_never_posts (signal_id : Z) (w : World) :
  let r := deliver_signal_webhook json_dumps generate_webhook_signature
             endpoint signal_id w in
  r.2 = w
  ∧ (signals w !! signal_id = None → r.1 = Ok None)
  ∧ (is_Some (signals w !! signal_id) → r.1 = Raise (NameError "Q")).
Proof.
  unfold deliver_signal_webhook.
  destruct (signals w !! signal_id) as [signal|]; cbn.
  - by repeat split.
  - repeat split; try done; by intros [? [=]].
Qed.

End WebhookFurther.

(** The sample delivery against an endpoint that fails twice, then
    answers 200: three requests, six seconds of sleep. *)
Lemma delivery_stops_at_first_success_witness :
  let r := _deliver_webhook sample_json_dumps sample_signature
             third_time_lucky sample_subscriber
             (_prepare_signal_payload sample_signal) sample_pending_delivery
             (sample_world ∅) in
  2 < 5
  ∧ r.1.1 = true
  ∧ length (posted r.2) = 3
  ∧ delivery_attempts r.1.2 = 3
  ∧ clock r.2 = (1000 + 6 * 1000000)%Z.
Proof.
  intros r.
  assert (Hk : 2 < 5) by lia.
  assert (Hfails : ∀ i q, i < 2 →
            is_success (third_time_lucky
                          (length (posted (sample_world ∅)) + i) q) = false).
  { intros i q Hi. simpl. destruct i as [|[|i]]; [done|done|lia]. }
  assert (Hok : ∀ q, is_success (third_time_lucky
                                   (length (posted (sample_world ∅)) + 2) q)
                     = true) by done.
  destruct (delivery_stops_at_first_success sample_json_dumps
              sample_signature third_time_lucky 2 sample_subscriber
              (_prepare_signal_payload sample_signal) sample_pending_delivery
              (sample_world ∅) Hk Hfails Hok)
    as (H1 & H2 & H3 & _ & _ & _ & H7 & _).
  split; [exact Hk|]. split; [exact H1|]. split; [exact H2|].
  split; [exact H3|]. exact H7.
Defined.

(** The sample delivery against the endpoint that always answers 500. *)
Lemma exhausted_delivery_sleeps_81_seconds_witness :
  let r := _deliver_webhook sample_json_dumps sample_signature always_500
             sample_subscriber (_prepare_signal_payload sample_signal)
             sample_pending_delivery (sample_world ∅) in
  (∀ n q, is_success (always_500 n q) = false)
  ∧ clock r.2 = (1000 + 81 * 1000000)%Z.
Proof.
  intros r.
  assert (Hnever : ∀ n q, is_success (always_500 n q) = false) by done.
  split; [exact Hnever|].
  exact (proj1 (proj2 (exhausted_delivery_sleeps_81_seconds sample_json_dumps
                         sample_signature always_500 sample_subscriber
                         (_prepare_signal_payload sample_signal)
                         sample_pending_delivery (sample_world ∅) Hnever))).
Defined.


(** ** Delivery statistics *)

Lemma count_status_disjoint (ds : list SignalDelivery) :
  count_status "delivered" ds + count_status "failed" ds
  + count_status "pending" ds + count_status "retrying" ds ≤ length ds.
Proof.
  unfold count_status.
  induction ds as [|d rest IH]; [done|].
  rewrite !filter_cons. simpl length.
  repeat case_decide; simpl length; try lia; congruence.
Qed.

(** X24: the four status counts never add up to more than the total, the counts
    of the delivered rows is at most the total, and the success rate lies in
    [0, 100]; it is 0 when there is no delivery record. *)
Theorem delivery_stats_consistent (subscriber : option APISubscriber)
    (w : World) :
  let stats := get_delivery_stats subscriber w in
  stats_delivered stats + stats_failed stats + stats_pending stats
  + stats_retrying stats ≤ total_deliveries stats
  ∧ (0 <= stats_success_rate stats <= 100)%Q
  ∧ (total_deliveries stats = 0 → stats_success_rate stats = 0%Q)
  ∧ (subscriber = None → total_deliveries stats = size (deliveries w)).
Proof.
  intros stats. unfold stats, get_delivery_stats.
  cbn [total_deliveries stats_delivered stats_failed stats_pending
         stats_retrying stats_success_rate].
  set (rows := match subscriber with Some _ => _ | None => _ end).
  pose proof (count_status_disjoint rows) as Hsum.
  split; [exact Hsum|]. split.
  - destruct (Nat.ltb_spec 0 (length rows)) as [Hpos|]; [|lra].
    assert (Hn : (0 < inject_Z (Z.of_nat (length rows)))%Q)
      by (apply inject_nat_pos; lia).
    assert (Hd : (0 <= inject_Z (Z.of_nat (count_status "delivered" rows))
                  <= inject_Z (Z.of_nat (length rows)))%Q).
    { split; [apply inject_nat_nonneg|]. rewrite <- Zle_Qle. lia. }
    assert (Hq : (0 <= inject_Z (Z.of_nat (count_status "delivered" rows))
                       / inject_Z (Z.of_nat (length rows)) <= 1)%Q)
      by (apply Qdiv_bounds; [done|lra]).
    lra.
  - split.
    + intros Hz. by rewrite Hz.
    + intros ->. unfold rows.
      by rewrite length_fmap, length_map_to_list.
Qed.

(** ** API keys and the rate limit *)

Lemma stale_spec (now : Z) (a : Account) :
  match last_accessed a with
  | Some t => (one_hour <? now - t)%Z
  | None => false
  end = true ↔ stale now a.
Proof.
  unfold stale. destruct (last_accessed a) as [t|].
  - rewrite Z.ltb_lt. split; [by exists t|by intros (? & [= <-] & ?)].
  - split; [done|by intros (? & [=] & _)].
Qed.

(** X25: the rate limit is a window that opens an hour after the last admitted
    request, not a count per clock hour. For an active subscriber found by
    its key: while the counter is not stale, a request is rejected with 429
    once the counter has reached the limit, and a rejected request changes
    nothing, so it does not push the window further; below the limit the
    request is admitted, the view's status is returned, and the stored
    counter goes up by one with the access time stamped. Once the last
    admitted request is more than an hour old, the counter restarts and the
    request is admitted whatever the counter was (for a limit above 0). *)
Theorem rate_limit_window (view_func : View) (now : Z) (k : string)
    (a : Account) (accounts : gmap string Account) :
  k ≠ "" →
  accounts !! k = Some a →
  subscriber_status (account_subscriber a) = "active" →
  let r := api_key_required view_func now (Some k) accounts in
  let restarted := mkAccount (account_subscriber a) 0 (last_accessed a)
                     (rate_limit_per_hour a) in
  let stamped (v : Z * Account * gmap string Account) :=
    mkAccount (account_subscriber v.1.2) (request_count v.1.2 + 1) (Some now)
      (rate_limit_per_hour v.1.2) in
  (¬ stale now a → rate_limit_per_hour a ≤ request_count a →
   r = (429%Z, accounts))
  ∧ (¬ stale now a → request_count a < rate_limit_per_hour a →
     let v := view_func a accounts in
     r = (v.1.1, save_account (stamped v) v.2))
  ∧ (stale now a → 0 < rate_limit_per_hour a →
     let v := view_func restarted (save_account restarted accounts) in
     r = (v.1.1, save_account (stamped v) v.2))
  ∧ (rate_limit_per_hour a = 0 → r.1 = 429%Z).
Proof.
  intros Hk Ha Hactive r restarted stamped.
  assert (Hkey : opt_str_truthy (Some k) = true).
  { simpl. unfold str_truthy. apply String.eqb_neq in Hk. by rewrite Hk. }
  unfold r, api_key_required. rewrite Hkey. cbn [negb mbind option_bind].
  rewrite Ha, Hactive.
  change (String.eqb "active" "active") with true.
  cbn [negb]. unfold is_rate_limited.
  pose proof (stale_spec now a) as Hstale.
  destruct (match last_accessed a with
            | Some t => (one_hour <? now - t)%Z
            | None => false
            end) eqn:Hs.
  - assert (Hst : stale now a) by (by apply Hstale).
    cbn [request_count rate_limit_per_hour].
    repeat split.
    + intros Hn. done.
    + intros Hn. done.
    + intros _ Hpos.
      destruct (Nat.leb_spec (rate_limit_per_hour a) 0); [lia|].
      fold restarted. by destruct (view_func _ _) as [[? ?] ?].
    + intros Hz. rewrite Hz. done.
  - assert (Hst : ¬ stale now a).
    { intros H. apply Hstale in H. congruence. }
    repeat split.
    + intros _ Hle.
      destruct (Nat.leb_spec (rate_limit_per_hour a) (request_count a));
        [done|lia].
    + intros _ Hlt.
      destruct (Nat.leb_spec (rate_limit_per_hour a) (request_count a));
        [lia|].
      by destruct (view_func _ _) as [[? ?] ?].
    + intros H. done.
    + intros Hz. rewrite Hz. done.
Qed.

(** The sample account at its limit of 2: rejected 30 minutes after its
    last admitted request, admitted again after 61 minutes. *)
Lemma rate_limit_window_witness :
  let last := 1000000%Z in
  let accounts := sample_accounts 2 (Some last) in
  "tp_key" ≠ ""
  ∧ accounts !! "tp_key" = Some (sample_account 2 (Some last))
  ∧ api_key_required ok_view (last + 1800 * 1000000) (Some "tp_key") accounts
    = (429%Z, accounts)
  ∧ (api_key_required ok_view (last + 3660 * 1000000) (Some "tp_key")
       accounts).1 = 200%Z.
Proof.
  intros last accounts.
  assert (Hk : "tp_key" ≠ "") by discriminate.
  assert (Ha : accounts !! "tp_key" = Some (sample_account 2 (Some last)))
    by reflexivity.
  assert (Hactive : subscriber_status
                      (account_subscriber (sample_account 2 (Some last)))
                    = "active") by reflexivity.
  split; [exact Hk|]. split; [exact Ha|]. split.
  - apply (rate_limit_window ok_view (last + 1800 * 1000000) "tp_key"
             (sample_account 2 (Some last)) accounts Hk Ha Hactive).
    + intros (t & [= <-] & Hlt). vm_compute in Hlt. discriminate.
    + simpl. lia.
  - pose proof (rate_limit_window ok_view (last + 3660 * 1000000) "tp_key"
                  (sample_account 2 (Some last)) accounts Hk Ha Hactive)
      as (_ & _ & Hstale & _).
    rewrite Hstale; [reflexivity| |simpl; lia].
    exists last. split; [reflexivity|]. reflexivity.
Defined.

(** ** Subscription updates *)

Lemma subscription_post_outcome (body : RequestBody) (a : Account)
    (accounts : gmap string Account) :
  let r := subscription_post body a accounts in
  (r.1.1 = 200%Z ∧ r.2 = save_account r.1.2 accounts)
  ∨ ((r.1.1 = 400%Z ∨ r.1.1 = 500%Z) ∧ r.2 = accounts).
Proof.
  unfold subscription_post. destruct body as [|data]; [right; by split; [left|]|].
  unfold assign_subscribed_tickers, assign_min_confidence_threshold,
    assign_signal_types, assign_webhook_url, and_then.
  destruct (update_subscribed_tickers data),
    (update_min_confidence_threshold data) as [[t|]|],
    (update_signal_types data), (update_webhook_url data);
    cbn; repeat case_match; simplify_eq; cbn;
    first [ left; split; reflexivity
          | right; split; [left; reflexivity | reflexivity]
          | right; split; [right; reflexivity | reflexivity] ].
Qed.

(** X26: the update handler keeps the preferences valid: starting from a
    threshold in [0, 1] and signal types among buy, sell and hold, the
    object it leaves behind still has both, whatever the request. It answers
    200, 400 or 500 and writes the table only with 200. A request that
    names [strong_buy] or [strong_sell] as a signal type is never accepted:
    subscribers cannot ask for the strong types through this handler. *)
Theorem subscription_update_keeps_preferences_valid (body : RequestBody)
    (a : Account) (accounts : gmap string Account) :
  valid_preferences a →
  let r := subscription_post body a accounts in
  valid_preferences r.1.2
  ∧ ((r.1.1 = 200%Z ∧ r.2 = save_account r.1.2 accounts)
     ∨ ((r.1.1 = 400%Z ∨ r.1.1 = 500%Z) ∧ r.2 = accounts))
  ∧ (∀ data types t,
        body = JsonObject data → update_signal_types data = Some types →
        t ∈ types → t ∉ valid_types → r.1.1 ≠ 200%Z).
Proof.
  intros [Hthr Htypes] r.
  split; [|split; [apply subscription_post_outcome|]].
  - unfold r, subscription_post. destruct body as [|data]; [by split|].
    unfold assign_subscribed_tickers, assign_min_confidence_threshold,
      assign_signal_types, assign_webhook_url, and_then, valid_preferences.
    destruct (update_subscribed_tickers data),
      (update_min_confidence_threshold data) as [[t|]|],
      (update_signal_types data) as [types|], (update_webhook_url data);
      cbn;
      try destruct (Qle_bool 0 t) eqn:H0;
      try destruct (Qle_bool t 1) eqn:H1;
      try destruct (forallb _ types) eqn:Hall;
      cbn; try (by split);
      try apply Qle_bool_iff in H0; try apply Qle_bool_iff in H1;
      (split; [try done; lra|]); try done;
      apply Forall_forall; intros x Hx;
      rewrite forallb_forall in Hall;
      apply list_elem_of_In in Hx; specialize (Hall x Hx);
      by apply bool_decide_eq_true in Hall.
  - intros data types t -> Htypes' Ht Hbad.
    unfold r, subscription_post.
    unfold assign_subscribed_tickers, assign_min_confidence_threshold,
      assign_signal_types, assign_webhook_url, and_then.
    rewrite Htypes'.
    assert (Hall : forallb (λ t, bool_decide (t ∈ valid_types)) types = false).
    { apply not_true_is_false. intros Hall.
      rewrite forallb_forall in Hall.
      apply list_elem_of_In in Ht. specialize (Hall t Ht).
      by apply bool_decide_eq_true in Hall. }
    rewrite Hall.
    destruct (update_subscribed_tickers data),
      (update_min_confidence_threshold data) as [[x|]|];
      cbn; repeat case_match; simplify_eq; cbn; done.
Qed.

(** A request for buy and strong buy signals is turned down. *)
Lemma subscription_update_keeps_preferences_valid_witness :
  let body := JsonObject (mkSubscriptionUpdate None None
                            (Some ["buy"; "strong_buy"]) None) in
  valid_preferences (sample_account 0 None)
  ∧ (subscription_post body (sample_account 0 None)
       (sample_accounts 0 None)).1.1 ≠ 200%Z.
Proof.
  intros body.
  assert (Hvalid : valid_preferences (sample_account 0 None)).
  { split; [split; discriminate|constructor]. }
  split; [exact Hvalid|].
  apply (proj2 (proj2 (subscription_update_keeps_preferences_valid body
                         (sample_account 0 None) (sample_accounts 0 None)
                         Hvalid))
           (mkSubscriptionUpdate None None (Some ["buy"; "strong_buy"]) None)
           ["buy"; "strong_buy"] "strong_buy" eq_refl eq_refl).
  - repeat constructor.
  - intros H. apply list_elem_of_In in H. simpl in H. intuition discriminate.
Defined.

(** An active subscriber below its limit, with a fresh counter, gets the
    view's status; the object the view leaves is stamped and saved. *)
Lemma api_key_required_admitted (view_func : View) (now : Z) (k : string)
    (a : Account) (accounts : gmap string Account) :
  k ≠ "" →
  accounts !! k = Some a →
  subscriber_status (account_subscriber a) = "active" →
  ¬ stale now a → request_count a < rate_limit_per_hour a →
  let v := view_func a accounts in
  api_key_required view_func now (Some k) accounts
  = (v.1.1,
     save_account
       (mkAccount (account_subscriber v.1.2) (request_count v.1.2 + 1)
          (Some now) (rate_limit_per_hour v.1.2)) v.2).
Proof.
  intros Hk Ha Hactive Hfresh Hlt v.
  assert (Hkey : opt_str_truthy (Some k) = true).
  { simpl. unfold str_truthy. apply String.eqb_neq in Hk. by rewrite Hk. }
  unfold api_key_required. rewrite Hkey. cbn [negb mbind option_bind].
  rewrite Ha, Hactive.
  change (String.eqb "active" "active") with true.
  cbn [negb]. unfold is_rate_limited.
  pose proof (stale_spec now a) as Hstale.
  destruct (match last_accessed a with
            | Some t => (one_hour <? now - t)%Z
            | None => false
            end) eqn:Hs.
  { exfalso. by apply Hfresh, Hstale. }
  destruct (Nat.leb_spec (rate_limit_per_hour a) (request_count a)); [lia|].
  unfold v. by destruct (view_func _ _) as [[? ?] ?].
Qed.

(** X27: a rejected update is not without effect. The handler assigns the new
    ticker list to the subscriber object before it checks the threshold;
    when the threshold is out of range it answers 400 and saves nothing
    itself, but the decorator then counts the request by saving that same
    object, so the new ticker list is stored although the request was
    rejected. *)
Theorem rejected_update_still_stores_tickers (now : Z) (k : string)
    (a : Account) (accounts : gmap string Account)
    (data : SubscriptionUpdate) (v : list string) (t : Q) :
  k ≠ "" →
  accounts !! k = Some a →
  api_key (account_subscriber a) = k →
  subscriber_status (account_subscriber a) = "active" →
  ¬ stale now a → request_count a < rate_limit_per_hour a →
  update_subscribed_tickers data = Some v →
  update_min_confidence_threshold data = Some (Some t) →
  ((t < 0)%Q ∨ (1 < t)%Q) →
  let handler := subscription_post (JsonObject data) in
  (handler a accounts).1.1 = 400%Z
  ∧ (handler a accounts).2 = accounts
  ∧ let r := api_key_required handler now (Some k) accounts in
    r.1 = 400%Z
    ∧ ∃ stored, r.2 !! k = Some stored
                ∧ subscribed_tickers (account_subscriber stored) = v
                ∧ min_confidence_threshold (account_subscriber stored)
                  = min_confidence_threshold (account_subscriber a)
                ∧ request_count stored = request_count a + 1.
Proof.
  intros Hk Ha Hown Hactive Hfresh Hlt Hv Ht Hrange handler.
  assert (Hrej : Qle_bool 0 t && Qle_bool t 1 = false).
  { apply andb_false_iff. destruct Hrange as [H|H];
      [left|right]; by apply Qle_bool_false. }
  assert (Hhandler : handler a accounts
                     = (400%Z, set_subscribed_tickers v a, accounts)).
  { unfold handler, subscription_post, assign_subscribed_tickers,
      assign_min_confidence_threshold, and_then.
    by rewrite Hv, Ht, Hrej. }
  rewrite Hhandler. split; [done|]. split; [done|].
  intros r. unfold r.
  rewrite (api_key_required_admitted handler now k a accounts
             Hk Ha Hactive Hfresh Hlt).
  rewrite Hhandler. cbn [fst snd]. split; [done|].
  eexists. split.
  - unfold save_account. cbn. rewrite Hown. apply lookup_insert_eq.
  - by repeat split.
Qed.

(** The sample subscriber sends a new ticker list with a threshold of 1.5. *)
Lemma rejected_update_still_stores_tickers_witness :
  let data := mkSubscriptionUpdate (Some ["TSLA"]) (Some (Some (15 # 10)%Q))
                None None in
  let r := api_key_required (subscription_post (JsonObject data)) 5000
             (Some "tp_key") (sample_accounts 0 None) in
  r.1 = 400%Z
  ∧ ∃ stored, r.2 !! "tp_key" = Some stored
              ∧ subscribed_tickers (account_subscriber stored) = ["TSLA"].
Proof.
  intros data r.
  assert (Hk : "tp_key" ≠ "") by discriminate.
  assert (Hfresh : ¬ stale 5000 (sample_account 0 None)).
  { intros (t & [=] & _). }
  assert (Hlt : request_count (sample_account 0 None)
                < rate_limit_per_hour (sample_account 0 None))
    by (simpl; lia).
  assert (Hrange : ((15 # 10) < 0)%Q ∨ (1 < 15 # 10)%Q) by (by right).
  destruct (rejected_update_still_stores_tickers 5000 "tp_key"
              (sample_account 0 None) (sample_accounts 0 None) data
              ["TSLA"] (15 # 10)%Q Hk eq_refl eq_refl eq_refl Hfresh Hlt
              eq_refl eq_refl Hrange)
    as (_ & _ & Hstatus & stored & Hstored & Htickers & _).
  split; [exact Hstatus|].
  exists stored. split; [exact Hstored | exact Htickers].
Defined.

(** ** Signal requests over the API *)

Section SignalsPostProperties.

Context (_generate_market_data_signal :
           MarketTicker → option MarketData → option GeneratedSignal)
        (_generate_combined_signal :
           MarketTicker → option MarketData → list NewsArticle
           → option GeneratedSignal).

(** The generator knows three sources; for any other it returns [None], and
    so it does for a symbol without a ticker row. *)
Lemma generate_signal_unknown_source (now : Z) (db : Database)
    (ticker_symbol source : string) :
  source ∉ ["gpt_analysis"; "market_data"; "combined"] →
  generate_signal _generate_market_data_signal _generate_combined_signal
    now db ticker_symbol source = None.
Proof.
  intros Hsrc. unfold generate_signal.
  destruct (list_find _ (tickers db)) as [[i ticker]|]; [|done].
  destruct (String.eqb_spec source "gpt_analysis") as [->|_];
    [exfalso; apply Hsrc; in_list|].
  destruct (String.eqb_spec source "market_data") as [->|_];
    [exfalso; apply Hsrc; in_list|].
  destruct (String.eqb_spec source "combined") as [->|_];
    [exfalso; apply Hsrc; in_list|].
  done.
Qed.

(** X28: the API handler that generates a signal on request never succeeds: it
    asks the generator for the source "api_request", which the generator
    does not know, so whatever the request, the tables and the two other
    generation paths, the answer is 400, 403 or 500, never 200, and nothing
    is changed. *)
Theorem signals_post_never_succeeds (now : Z) (db : Database)
    (body : SignalRequestBody) (subscriber : Account)
    (accounts : gmap string Account) :
  let r := signals_post _generate_market_data_signal _generate_combined_signal
             now db body subscriber accounts in
  (r.1.1 = 400%Z ∨ r.1.1 = 403%Z ∨ r.1.1 = 500%Z)
  ∧ r.1.1 ≠ 200%Z
  ∧ r.1.2 = subscriber
  ∧ r.2 = accounts
  ∧ (∀ value, body = Ticker value → str_upper value ≠ "" →
       (subscribed_tickers (account_subscriber subscriber) = []
        ∨ str_upper value
          ∈ subscribed_tickers (account_subscriber subscriber)) →
       r.1.1 = 500%Z).
Proof.
  intros r. unfold r, signals_post.
  assert (Hnone : ∀ sym,
            generate_signal _generate_market_data_signal
              _generate_combined_signal now db sym "api_request" = None).
  { intros sym. apply generate_signal_unknown_source.
    intros H. apply list_elem_of_In in H. simpl in H.
    intuition discriminate. }
  destruct body as [| | |value]; cbn [fst snd].
  1-3: repeat split; try done; auto.
  rewrite Hnone.
  destruct (str_truthy (str_upper value)) eqn:Hticker; cbn [negb].
  - destruct (bool_decide _) eqn:Hempty;
      [|destruct (bool_decide (str_upper value ∈ _)) eqn:Hin];
      cbn [negb andb fst snd]; repeat split; try done; auto.
    intros v [= <-] _ [Hnil|Hmem].
    + apply bool_decide_eq_false in Hempty. done.
    + apply bool_decide_eq_false in Hin. done.
  - cbn [fst snd]. repeat split; try done; auto.
    intros v [= <-] Hne. unfold str_truthy in Hticker.
    apply negb_false_iff, String.eqb_eq in Hticker. done.
Qed.

End SignalsPostProperties.
